(** * ShengTang convertible-bond valuation: a shallow embedding

    Embedding of [cb_quant_system/strategy_shengtang.py].

    Conventions of the embedding.
    - A Python float that is computed from valid inputs is a real number
      ([R]); [np.log], [np.exp] and [np.sqrt] are [ln], [exp] and [sqrt],
      which agree with them on the arguments where numpy returns a finite
      number (positive arguments for [np.log], non-negative ones for
      [np.sqrt]).  [x ** n] with an integer [n] is [x ^ n]; [x ** y] with a
      float exponent and a positive base is [Rpower x y].  Division is the
      total division of [R]; a theorem about a quotient, a logarithm or a
      power carries the hypotheses that keep the divisor away from 0 and
      the argument or the base positive.  The finite range of floats is not
      modelled: no operation overflows.
    - A Python string is ASCII text: [str.strip] and [str.upper] are
      modelled on the characters below 128, and the theorem on the table
      lookup of a token asks for [isascii].
    - A float read from a DataFrame cell may be missing: [pyfloat] adds the
      value [NaN], on which every comparison is false and [pd.isna] is true.
    - [scipy.stats.norm.cdf] is a parameter of the development, together with
      the properties of the standard normal distribution function that the
      proofs use.
    - [DataFrame.sort_values] is a parameter as well, with the contract pandas
      documents for its default algorithm: the result is a rearrangement of
      the rows, ascending in the key, missing keys last. *)

From Stdlib Require Import Reals Lra Lia ZArith List String Ascii Bool.
From Stdlib Require Import Permutation Sorted.
Import ListNotations.

Open Scope R_scope.

(** ** Python values *)

Definition Rle_b (x y : R) : bool := if Rle_dec x y then true else false.
Definition Rlt_b (x y : R) : bool := if Rlt_dec x y then true else false.
Definition Req_b (x y : R) : bool := if Req_dec_T x y then true else false.

(** A float cell of a DataFrame: a number, or the missing value. *)
Inductive pyfloat : Type :=
| NaN
| Fin (x : R).

(** [pd.isna] *)
Definition isna (c : pyfloat) : bool :=
  match c with NaN => true | Fin _ => false end.

(** [c <= y], [c > y] and [c < y] on a cell: false on [NaN]. *)
Definition fle (c : pyfloat) (y : R) : bool :=
  match c with NaN => false | Fin x => Rle_b x y end.
Definition fgt (c : pyfloat) (y : R) : bool :=
  match c with NaN => false | Fin x => Rlt_b y x end.
Definition flt (c : pyfloat) (y : R) : bool :=
  match c with NaN => false | Fin x => Rlt_b x y end.

(** Float arithmetic on cells propagates [NaN]. *)
Definition fmap2 (f : R -> R -> R) (a b : pyfloat) : pyfloat :=
  match a, b with
  | Fin x, Fin y => Fin (f x y)
  | _, _ => NaN
  end.

(** [int(x)]: truncation toward zero. *)
Definition py_int (x : R) : Z :=
  if Rle_b 0 x then Zfloor x else Zceil x.

(** [x ** y] for floats, on a positive base. *)
Definition py_pow (x y : R) : R := Rpower x y.

(** [l[i]] on a Python list: a negative index counts from the end, an index
    out of range raises [IndexError] ([None]). *)
Definition py_index {A : Type} (l : list A) (i : Z) : option A :=
  let n := Z.of_nat (List.length l) in
  if (0 <=? i)%Z then nth_error l (Z.to_nat i)
  else if (- n <=? i)%Z then nth_error l (Z.to_nat (n + i))
  else None.

(** [range(a, b)] for [a >= 0]. *)
Definition py_range (a b : Z) : list nat :=
  seq (Z.to_nat a) (Z.to_nat (b - a)).

(** The error monad of the embedding: [None] is a raised exception. *)
Definition bind {A B : Type} (m : option A) (k : A -> option B) : option B :=
  match m with
  | Some a => k a
  | None => None
  end.

Notation "x <- m ;; k" := (bind m (fun x => k))
  (at level 61, m at next level, right associativity).

(** ** Strings: [str.strip] and [str.upper] on ASCII text

    A rating token is ASCII text; characters above 127 are left alone. *)

(** [str.isspace] on one ASCII character: TAB, LF, VT, FF, CR, the four
    separators FS, GS, RS, US, and the space. *)
Definition isspace (c : ascii) : bool :=
  let n := nat_of_ascii c in
  ((9 <=? n) && (n <=? 13) || (28 <=? n) && (n <=? 32))%nat.

Definition upper_ascii (c : ascii) : ascii :=
  let n := nat_of_ascii c in
  if ((97 <=? n) && (n <=? 122))%nat then ascii_of_nat (n - 32) else c.

Fixpoint upper (s : string) : string :=
  match s with
  | EmptyString => EmptyString
  | String c s' => String (upper_ascii c) (upper s')
  end.

Fixpoint lstrip (s : string) : string :=
  match s with
  | EmptyString => EmptyString
  | String c s' => if isspace c then lstrip s' else s
  end.

Fixpoint rstrip (s : string) : string :=
  match s with
  | EmptyString => EmptyString
  | String c s' =>
      match rstrip s' with
      | EmptyString => if isspace c then EmptyString else String c EmptyString
      | r => String c r
      end
  end.

Definition strip (s : string) : string := rstrip (lstrip s).

(** [str.isascii]: every character is below 128. *)
Fixpoint isascii (s : string) : bool :=
  match s with
  | EmptyString => true
  | String c s' => (nat_of_ascii c <? 128)%nat && isascii s'
  end.

(** ** Configuration

    A Python dict with string keys, as the association list of its literal. *)

Definition dict := list (string * R).

(** [d[k]]: [None] is [KeyError]. *)
Fixpoint dict_item (d : dict) (k : string) : option R :=
  match d with
  | [] => None
  | (k', v) :: d' => if String.eqb k k' then Some v else dict_item d' k
  end.

(** [d.get(k, default)] *)
Definition dict_get (d : dict) (k : string) (default : R) : R :=
  match dict_item d k with
  | Some v => v
  | None => default
  end.

Record Config : Type := {
  risk_free_rate : R;
  credit_spread : dict;
  call_trigger_ratio : R;
  put_trigger_ratio : R;
  downward_revision_base_prob : R;
  volatility_adjustment : R;
  default_volatility : R;
  conversion_threshold : R
}.

Definition SHENGTANG_CONFIG : Config := {|
  risk_free_rate := 0.025;
  credit_spread :=
    [ ("AAA"%string, 0.005); ("AA+"%string, 0.010); ("AA"%string, 0.015);
      ("AA-"%string, 0.020); ("A+"%string, 0.030); ("A"%string, 0.040);
      ("A-"%string, 0.050); ("BBB"%string, 0.070);
      ("default"%string, 0.025) ];
  call_trigger_ratio := 1.30;
  put_trigger_ratio := 0.70;
  downward_revision_base_prob := 0.80;
  volatility_adjustment := 1.1;
  default_volatility := 0.35;
  conversion_threshold := 130.0
|}.

(** The eight rating keys of the table. *)
Definition rating_keys : list string :=
  ["AAA"; "AA+"; "AA"; "AA-"; "A+"; "A"; "A-"; "BBB"]%string.

(** The nine spreads of the table. *)
Definition spread_values : list R :=
  map snd (credit_spread SHENGTANG_CONFIG).

(** A rating cell: a token, or missing. *)
Inductive rating_cell : Type :=
| RatingNaN
| RatingStr (s : string).

(** [SHENGTANG_CONFIG['credit_spread']['default']]; the key is in the table
    (lemma [credit_spread_default_item]), so the [KeyError] branch is dead. *)
Definition credit_spread_default : R :=
  match dict_item (credit_spread SHENGTANG_CONFIG) "default" with
  | Some v => v
  | None => 0
  end.

Definition get_credit_spread (rating : rating_cell) : R :=
  match rating with
  | RatingNaN => credit_spread_default
  | RatingStr s =>
      let rating_str := upper (strip s) in
      dict_get (credit_spread SHENGTANG_CONFIG) rating_str
               credit_spread_default
  end.


(** ** Rows and results *)

(** One row as [iterrows] yields it: a [pd.Series]; [None] is a label the
    Series does not have. *)
Record Series : Type := {
  price : option pyfloat;
  stock_price : option pyfloat;
  convert_price : option pyfloat;
  years_to_maturity : option pyfloat;
  rating : option rating_cell;
  premium_rate : option pyfloat
}.

(** [row.get(label, default)] *)
Definition row_get {A : Type} (cell : option A) (default : A) : A :=
  match cell with
  | Some v => v
  | None => default
  end.

(** The dict that [calculate_shengtang_value] returns.  The five components
    and the total are numbers; the price is echoed from the row and may be
    missing, and so may the deviation computed from it. *)
Record ValuationResult : Type := {
  bond_floor : R;
  put_value : R;
  call_option_value : R;
  revision_value : R;
  redemption_loss : R;
  total_value : R;
  current_price : pyfloat;
  value_deviation : pyfloat
}.

(** The number in a cell that the validation has shown not to be missing. *)
Definition number (c : pyfloat) : R :=
  match c with
  | Fin x => x
  | NaN => 0
  end.

(** ** DataFrames

    A DataFrame is a set of columns and, for every row, one cell per column.
    Only the six columns the valuation reads are modelled; a column the frame
    does not have is absent from every Series that [iterrows] yields. *)
Record Columns : Type := {
  has_price : bool;
  has_stock_price : bool;
  has_convert_price : bool;
  has_years_to_maturity : bool;
  has_rating : bool;
  has_premium_rate : bool
}.

Record Cells : Type := {
  cell_price : pyfloat;
  cell_stock_price : pyfloat;
  cell_convert_price : pyfloat;
  cell_years_to_maturity : pyfloat;
  cell_rating : rating_cell;
  cell_premium_rate : pyfloat
}.

Record DataFrame : Type := {
  columns : Columns;
  rows : list Cells
}.

Definition label {A : Type} (present : bool) (v : A) : option A :=
  if present then Some v else None.

(** The Series of one row. *)
Definition series_of (cols : Columns) (c : Cells) : Series := {|
  price := label (has_price cols) (cell_price c);
  stock_price := label (has_stock_price cols) (cell_stock_price c);
  convert_price := label (has_convert_price cols) (cell_convert_price c);
  years_to_maturity :=
    label (has_years_to_maturity cols) (cell_years_to_maturity c);
  rating := label (has_rating cols) (cell_rating c);
  premium_rate := label (has_premium_rate cols) (cell_premium_rate c)
|}.

(** A row of the working frame once the [st_] columns are added: its position
    in the input, its input cells and its valuation. *)
Record Entry : Type := {
  position : nat;
  cells : Cells;
  st : ValuationResult
}.

Definition st_total_value (e : Entry) : R := total_value (st e).
Definition st_value_deviation (e : Entry) : pyfloat := value_deviation (st e).

(** [df.head(n)]: the first [n] rows, or all but the last [-n] ones. *)
Definition head {A : Type} (l : list A) (n : Z) : list A :=
  if (0 <=? n)%Z then firstn (Z.to_nat n) l
  else firstn (List.length l - Z.to_nat (- n)) l.

(** Ascending order of sort keys, missing keys last. *)
Definition key_le (a b : pyfloat) : Prop :=
  match a, b with
  | Fin x, Fin y => x <= y
  | _, NaN => True
  | NaN, Fin _ => False
  end.

Fixpoint mapM {A B : Type} (f : A -> option B) (l : list A) :
    option (list B) :=
  match l with
  | [] => Some []
  | a :: l' => b <- f a ;; bs <- mapM f l' ;; Some (b :: bs)
  end.

(** Rows numbered from [start]. *)
Fixpoint enumerate_from (start : nat) (cs : list Cells)
    (vs : list ValuationResult) : list Entry :=
  match cs, vs with
  | c :: cs', v :: vs' =>
      {| position := start; cells := c; st := v |}
      :: enumerate_from (Datatypes.S start) cs' vs'
  | _, _ => []
  end.

(** The default coupon schedule of [calculate_bond_floor]. *)
Definition default_coupon_rates : list R :=
  [0.004; 0.006; 0.010; 0.015; 0.020; 0.025].

(** ** Quantities named in the proofs *)

(** The quantities [d1] and [d2] of the Black-Scholes formula. *)
Definition bs_d1 (S K T r sigma : R) : R :=
  (ln (S / K) + (r + 0.5 * sigma ^ 2) * T) / (sigma * sqrt T).
Definition bs_d2 (S K T r sigma : R) : R :=
  bs_d1 S K T r sigma - sigma * sqrt T.

(** The discounted coupon of year [y]. *)
Definition coupon_term (face : R) (coupon_rate : list R) (d : R) (y : nat) :
    R :=
  face * nth (Nat.min (y - 1) (List.length coupon_rate - 1)) coupon_rate 0
  / (1 + d) ^ y.

(** ** The plain fixed-income present value, as the specification words it

    The coupons of the whole years [y = 1 .. ceil T] with [y <= T], each
    discounted over [y] years, plus the face value discounted over [T]. *)

Definition coupon_schedule (coupon_rates : option (list R)) : list R :=
  match coupon_rates with
  | None | Some [] => default_coupon_rates
  | Some l => l
  end.

Definition plain_present_value (face : R) (coupon_rate : list R)
    (discount_rate T : R) : R :=
  let last_index := (List.length coupon_rate - 1)%nat in
  fold_right Rplus 0
    (map (fun y =>
            face * nth (Nat.min (y - 1) last_index) coupon_rate 0
            / (1 + discount_rate) ^ y)
         (filter (fun y => Rle_b (INR y) T) (seq 1 (Z.to_nat (Zceil T)))))
  + face / Rpower (1 + discount_rate) T.

(** "Every per-year conversion probability is 0": no list (the code then
    takes zeros), or a list of zeros with at least one year in it. *)
Definition no_conversion (conversion_probs : option (list R)) : Prop :=
  match conversion_probs with
  | None => True
  | Some l => l <> [] /\ Forall (fun q => q = 0) l
  end.

(** ** Instances of the two parameters

    A distribution function with the four properties asked of [norm.cdf],
    and a sorting routine with the contract asked of [sort_values]: an
    insertion sort. *)

Definition step_cdf (x : R) : R :=
  if Rlt_b x 0 then 0 else if Rlt_b 0 x then 1 else 1 / 2.

Definition key_leb (a b : pyfloat) : bool :=
  match a, b with
  | Fin x, Fin y => Rle_b x y
  | _, NaN => true
  | NaN, Fin _ => false
  end.

Fixpoint insert_by (key : Entry -> pyfloat) (e : Entry) (l : list Entry) :
    list Entry :=
  match l with
  | [] => [e]
  | h :: t =>
      if key_leb (key e) (key h) then e :: l else h :: insert_by key e t
  end.

Definition insertion_sort (key : Entry -> pyfloat) (l : list Entry) :
    list Entry :=
  fold_right (insert_by key) [] l.

(** A conversion price that is missing or not positive: the label is not
    there, or it holds no number, or a number that is not positive. *)
Definition invalid_convert_price (cell : option pyfloat) : Prop :=
  match cell with
  | None | Some NaN => True
  | Some (Fin x) => x <= 0
  end.

(** Every field of the result is 0. *)
Definition all_fields_zero (res : ValuationResult) : Prop :=
  bond_floor res = 0 /\ put_value res = 0 /\ call_option_value res = 0
  /\ revision_value res = 0 /\ redemption_loss res = 0
  /\ total_value res = 0 /\ current_price res = Fin 0
  /\ value_deviation res = Fin 0.

(** Every field but the echoed price is 0. *)
Definition valuation_fields_zero (res : ValuationResult) : Prop :=
  bond_floor res = 0 /\ put_value res = 0 /\ call_option_value res = 0
  /\ revision_value res = 0 /\ redemption_loss res = 0
  /\ total_value res = 0 /\ value_deviation res = Fin 0.

(** The batch screen of [strategy_shengtang]: the three filters in a row. *)
Definition screen (cols : Columns) (max_premium_rate : R) (l : list Entry) :
    list Entry :=
  let df1 := filter (fun e => Rlt_b 0 (st_total_value e)) l in
  let df2 := filter (fun e => flt (st_value_deviation e) 0) df1 in
  if has_premium_rate cols then
    filter (fun e => flt (cell_premium_rate (cells e)) max_premium_rate) df2
  else df2.

(** Ascending order of the deviation column. *)
Definition ascending (l : list Entry) : Prop :=
  Sorted (fun a b => key_le (st_value_deviation a) (st_value_deviation b)) l.

(** The rows of a frame are in input order. *)
Definition increasing (l : list Entry) : Prop :=
  StronglySorted (fun a b => (position a < position b)%nat) l.

(** ** Sample batches *)

Definition all_columns : Columns := {|
  has_price := true;
  has_stock_price := true;
  has_convert_price := true;
  has_years_to_maturity := true;
  has_rating := true;
  has_premium_rate := true
|}.

(** A bond half a year from maturity, quoted at 95. *)
Definition short_dated_bond : Cells := {|
  cell_price := Fin 95;
  cell_stock_price := Fin 20;
  cell_convert_price := Fin 25;
  cell_years_to_maturity := Fin 0.5;
  cell_rating := RatingStr "AA";
  cell_premium_rate := Fin 12
|}.

(** The same bond with the conversion price 0. *)
Definition zero_strike_bond : Cells := {|
  cell_price := Fin 95;
  cell_stock_price := Fin 20;
  cell_convert_price := Fin 0;
  cell_years_to_maturity := Fin 0.5;
  cell_rating := RatingStr "AA";
  cell_premium_rate := Fin 12
|}.

(** A batch of two rows with the same cells. *)
Definition tied_batch : DataFrame := {|
  columns := all_columns;
  rows := [short_dated_bond; short_dated_bond]
|}.

Definition zero_strike_batch : DataFrame := {|
  columns := all_columns;
  rows := [zero_strike_bond]
|}.

(** A valid base input: the label is there and holds a positive number. *)
Definition valid_input (cell : option pyfloat) : Prop :=
  exists x, cell = Some (Fin x) /\ 0 < x.

(** A string that does not begin with white space. *)
Definition no_leading_space (s : string) : Prop :=
  match s with
  | EmptyString => True
  | String c _ => isspace c = false
  end.

(** ** Rows that differ in one cell *)

Definition with_stock_price (cell : option pyfloat) (row : Series) : Series := {|
  price := price row;
  stock_price := cell;
  convert_price := convert_price row;
  years_to_maturity := years_to_maturity row;
  rating := rating row;
  premium_rate := premium_rate row
|}.

Definition with_years_to_maturity (cell : option pyfloat) (row : Series) :
    Series := {|
  price := price row;
  stock_price := stock_price row;
  convert_price := convert_price row;
  years_to_maturity := cell;
  rating := rating row;
  premium_rate := premium_rate row
|}.

(** A cell with a number that is not positive, or with no number. *)
Definition nan_or_not_positive (c : pyfloat) : Prop :=
  match c with
  | NaN => True
  | Fin x => x <= 0
  end.

(** ** Indicators: [calculator.py]

    The functions that fill the columns [convert_value], [premium_rate],
    [double_low] and [ytm] of the frame that the strategies read.  The
    arguments that come from cells may be missing; the face value, the
    coupon rate and the coefficient are numbers. *)

(** [config.DOUBLE_LOW_COEFFICIENT] *)
Definition DOUBLE_LOW_COEFFICIENT : R := 1.0.

Definition calculate_convert_value (stock_price convert_price : pyfloat)
    (face_value : R) : pyfloat :=
  if fle convert_price 0 || isna convert_price then NaN
  else fmap2 Rmult (fmap2 Rdiv stock_price convert_price) (Fin face_value).

Definition calculate_premium_rate (cb_price convert_value : pyfloat) :
    pyfloat :=
  if fle convert_value 0 || isna convert_value then NaN
  else
    fmap2 Rmult
      (fmap2 Rdiv (fmap2 Rminus cb_price convert_value) convert_value)
      (Fin 100).

Definition calculate_double_low (price premium_rate : pyfloat)
    (coefficient : R) : pyfloat :=
  if isna price || isna premium_rate then NaN
  else fmap2 Rplus price (fmap2 Rmult premium_rate (Fin coefficient)).

Definition calculate_pure_bond_value
    (face_value coupon_rate years_to_maturity discount_rate : R) : R :=
  if Rle_b years_to_maturity 0 then face_value
  else
    let annual_coupon := face_value * coupon_rate in
    let pv :=
      fold_left
        (fun pv year => pv + annual_coupon / ((1 + discount_rate) ^ year))
        (py_range 1 (py_int years_to_maturity + 1)) 0 in
    pv + face_value / py_pow (1 + discount_rate) years_to_maturity.

Definition calculate_ytm_simple (price : pyfloat) (face_value : R)
    (years_to_maturity : pyfloat) (coupon_rate : R) : pyfloat :=
  if fle years_to_maturity 0 || fle price 0 then NaN
  else
    let annual_coupon := face_value * coupon_rate in
    let capital_gain :=
      fmap2 Rdiv (fmap2 Rminus (Fin face_value) price) years_to_maturity in
    let average_price :=
      fmap2 Rdiv (fmap2 Rplus (Fin face_value) price) (Fin 2) in
    let ytm :=
      fmap2 Rmult
        (fmap2 Rdiv (fmap2 Rplus (Fin annual_coupon) capital_gain)
           average_price)
        (Fin 100) in
    ytm.

(** The [double_low] column as [strategy_double_low_ytm] fills it when the
    frame has none: [df['price'] + df['premium_rate']]. *)
Definition double_low_column (price premium_rate : pyfloat) : pyfloat :=
  fmap2 Rplus price premium_rate.

(** The [ytm] column as [strategy_double_low_ytm] fills it when the frame
    has none. *)
Definition ytm_column (price years_to_maturity : pyfloat) : pyfloat :=
  if negb (isna years_to_maturity) && fgt years_to_maturity 0 then
    fmap2 Rmult
      (fmap2 Rdiv
         (fmap2 Rdiv (fmap2 Rminus (Fin 100) price) price)
         (Fin (Rmax (number years_to_maturity) 0.1)))
      (Fin 100)
  else Fin 0.

(** ** The simplified valuation: [strategy_shengtang_simple.py] *)

Module Simple.

Record Config : Type := {
  discount_rate : R;
  max_premium_rate : R;
  max_price : R;
  min_volume : R
}.

Definition SIMPLE_CONFIG : Config := {|
  discount_rate := 0.03;
  max_premium_rate := 10.0;
  max_price := 200.0;
  min_volume := 50.0
|}.

(** The labels of a row that [simple_valuation] reads. *)
Record Series : Type := {
  price : option pyfloat;
  convert_value : option pyfloat;
  years_to_maturity : option pyfloat
}.

(** [None] is the pair [(None, None)]; otherwise the total and the
    deviation, which is missing when the price is. *)
Definition simple_valuation (row : Series) : option (R * pyfloat) :=
  let price := row_get (price row) (Fin 100) in
  let convert_value := row_get (convert_value row) (Fin 0) in
  let years := row_get (years_to_maturity row) (Fin 3) in
  if isna convert_value || fle convert_value 0 then None
  else
    let years := if isna years || fle years 0 then Fin 0.5 else years in
    (* both cells hold numbers from here on *)
    let convert_value := number convert_value in
    let years := number years in
    let r := discount_rate SIMPLE_CONFIG in
    let bond_floor := 100 / py_pow (1 + r) (Rmax years 0.5) in
    let option_value :=
      if Rle_b 100 convert_value then (convert_value - 100) + 5
      else Rmax 0 ((100 - convert_value) * 0.3 * Rmin years 3) in
    let total_value := Rmax bond_floor convert_value + option_value * 0.5 in
    let deviation :=
      fmap2 Rmult
        (fmap2 Rdiv (fmap2 Rminus price (Fin total_value)) (Fin total_value))
        (Fin 100) in
    Some (total_value, deviation).

End Simple.

Section Valuation.

(** [scipy.stats.norm.cdf], the standard normal distribution function. *)
Variable norm_cdf : R -> R.

(** It is a distribution function, *)
Hypothesis norm_cdf_range : forall x, 0 <= norm_cdf x <= 1.
Hypothesis norm_cdf_monotone : forall x y, x <= y -> norm_cdf x <= norm_cdf y.
(** symmetric around 0, *)
Hypothesis norm_cdf_symmetric : forall x, norm_cdf (- x) = 1 - norm_cdf x.
(** and its ratio to the normal density [exp (- x^2 / 2) / sqrt (2 PI)]
    increases with [x] (the Mills ratio of the normal law decreases). *)
Hypothesis norm_cdf_mills :
  forall x y, x <= y ->
    norm_cdf x * exp (x ^ 2 / 2) <= norm_cdf y * exp (y ^ 2 / 2).

(** ** Pricer *)

Definition black_scholes_call (S K T r sigma : R) : R :=
  if Rle_b T 0 || Rle_b sigma 0 || Rle_b S 0 || Rle_b K 0 then
    Rmax 0 (S - K)
  else
    let d1 := (ln (S / K) + (r + 0.5 * sigma ^ 2) * T) / (sigma * sqrt T) in
    let d2 := d1 - sigma * sqrt T in
    let call_price := S * norm_cdf d1 - K * exp (- r * T) * norm_cdf d2 in
    Rmax 0 call_price.

Definition black_scholes_put (S K T r sigma : R) : R :=
  if Rle_b T 0 || Rle_b sigma 0 || Rle_b S 0 || Rle_b K 0 then
    Rmax 0 (K - S)
  else
    let d1 := (ln (S / K) + (r + 0.5 * sigma ^ 2) * T) / (sigma * sqrt T) in
    let d2 := d1 - sigma * sqrt T in
    let put_price :=
      K * exp (- r * T) * norm_cdf (- d2) - S * norm_cdf (- d1) in
    Rmax 0 put_price.

Definition calculate_conversion_probability
    (S K T sigma threshold : R) : R :=
  if Rle_b T 0 || Rle_b sigma 0 then
    let current_cv := (S / K) * 100 in
    if Rle_b threshold current_cv then 1.0 else 0.0
  else
    let required_stock_price := K * threshold / 100 in
    let r := risk_free_rate SHENGTANG_CONFIG in
    let d2 :=
      (ln (S / required_stock_price) + (r - 0.5 * sigma ^ 2) * T)
      / (sigma * sqrt T) in
    let prob := norm_cdf d2 in
    prob.

(** [calculate_conversion_probability] with the failures of its float
    operations written out, for arguments that are Python floats as the
    signature has them.  [/] on a zero divisor raises [ZeroDivisionError]
    ([None]): [S / K] in the first branch, [S / required_stock_price] in the
    second.  [np.log] of a negative number is [nan], which the arithmetic
    of [d2] and [norm.cdf] hand on; [np.log] of zero is [-inf], where
    [norm.cdf] is 0. *)
Definition calculate_conversion_probability_checked
    (S K T sigma threshold : R) : option pyfloat :=
  if Rle_b T 0 || Rle_b sigma 0 then
    if Req_b K 0 then None
    else
      let current_cv := (S / K) * 100 in
      Some (Fin (if Rle_b threshold current_cv then 1.0 else 0.0))
  else
    let required_stock_price := K * threshold / 100 in
    if Req_b required_stock_price 0 then None
    else
      let ratio := S / required_stock_price in
      if Rlt_b ratio 0 then Some NaN
      else if Req_b ratio 0 then Some (Fin 0)
      else
        let r := risk_free_rate SHENGTANG_CONFIG in
        let d2 :=
          (ln ratio + (r - 0.5 * sigma ^ 2) * T) / (sigma * sqrt T) in
        let prob := norm_cdf d2 in
        Some (Fin prob).

(** ** BondFloorEstimator *)

(** The body of the [for year in range(1, n_years + 1)] loop, on the state
    [(pv, remaining_prob)]; the loop stops at the first [year] beyond
    [years_to_maturity]. *)
Fixpoint bond_floor_loop (face_value : R)
    (coupon_rates conversion_probs : list R)
    (years_to_maturity discount_rate : R)
    (years : list nat) (pv remaining_prob : R) : option (R * R) :=
  match years with
  | [] => Some (pv, remaining_prob)
  | year :: rest =>
      if Rlt_b years_to_maturity (INR year) then Some (pv, remaining_prob)
      else
        let coupon_idx :=
          Z.min (Z.of_nat year - 1) (Z.of_nat (List.length coupon_rates) - 1) in
        rate <- py_index coupon_rates coupon_idx ;;
        let coupon := face_value * rate in
        let conv_prob_idx :=
          Z.min (Z.of_nat year - 1)
                (Z.of_nat (List.length conversion_probs) - 1) in
        conv_prob <- py_index conversion_probs conv_prob_idx ;;
        let adjusted_coupon := coupon * remaining_prob * (1 - conv_prob) in
        let pv := pv + adjusted_coupon / ((1 + discount_rate) ^ year) in
        let remaining_prob := remaining_prob * (1 - conv_prob) in
        bond_floor_loop face_value coupon_rates conversion_probs
          years_to_maturity discount_rate rest pv remaining_prob
  end.

(** [coupon_rates] and [conversion_probs] are lists or Python's [None]. *)
Definition calculate_bond_floor (face_value : R)
    (coupon_rates : option (list R))
    (years_to_maturity discount_rate : R)
    (conversion_probs : option (list R)) : option R :=
  if Rle_b years_to_maturity 0 then Some face_value
  else
    let n_years := Zceil years_to_maturity in
    let coupon_rates :=
      match coupon_rates with
      | None => default_coupon_rates
      | Some l =>
          if (Z.of_nat (List.length l) =? 0)%Z then default_coupon_rates
          else l
      end in
    let conversion_probs :=
      match conversion_probs with
      | None => repeat 0.0 (Z.to_nat n_years)
      | Some l => l
      end in
    st <- bond_floor_loop face_value coupon_rates conversion_probs
            years_to_maturity discount_rate
            (py_range 1 (n_years + 1)) 0 1.0 ;;
    let '(pv, remaining_prob) := st in
    let pv :=
      pv + face_value * remaining_prob
           / py_pow (1 + discount_rate) years_to_maturity in
    Some pv.

(** ** PutValuator *)

Definition calculate_put_value
    (face_value put_price years_to_put discount_rate put_probability : R) : R :=
  if Rle_b years_to_put 0 then put_price * put_probability
  else
    let put_pv := put_price / py_pow (1 + discount_rate) years_to_put in
    put_pv * put_probability.

(** ** OptionValuators *)

Definition calculate_call_option_value (S K T sigma r : R) : R :=
  let shares_per_bond := 100 / K in
  let call_value := black_scholes_call S K T r sigma in
  call_value * shares_per_bond.

Definition calculate_downward_revision_value
    (S K T sigma r years_to_put : R) : R :=
  let base_prob := downward_revision_base_prob SHENGTANG_CONFIG in
  let revision_prob :=
    if Rle_b years_to_put 0 then base_prob
    else if Rle_b years_to_put 1 then base_prob * 0.9
    else if Rle_b years_to_put 2 then base_prob * 0.5
    else base_prob * 0.2 in
  let current_cv := (S / K) * 100 in
  let revision_prob :=
    if Rlt_b 100 current_cv then revision_prob * 0.3
    else if Rlt_b 90 current_cv then revision_prob * 0.6
    else revision_prob in
  let new_K := S * 0.9 in
  let original_call := calculate_call_option_value S K T sigma r in
  let revised_call := calculate_call_option_value S new_K T sigma r in
  let value_increase := Rmax 0 (revised_call - original_call) in
  value_increase * revision_prob.

Definition calculate_forced_redemption_loss
    (S K T sigma r call_trigger : R) : R :=
  if Rle_b T 0.5 then 0
  else
    let call_price := K * call_trigger in
    let d2 :=
      (ln (S / call_price) + (r - 0.5 * sigma ^ 2) * T) / (sigma * sqrt T) in
    let call_prob := norm_cdf d2 in
    let current_cv := (S / K) * 100 in
    let call_prob :=
      if Rlt_b 125 current_cv then Rmin 0.95 (call_prob * 1.5)
      else call_prob in
    let remaining_T := Rmax 0 (T - 1) in
    if Rlt_b 0 remaining_T then
      let full_option := calculate_call_option_value S K T sigma r in
      let early_option := calculate_call_option_value S K 1 sigma r in
      Rmax 0 (full_option - early_option) * call_prob
    else 0.

(** ** ValuationOrchestrator *)

(** The initial [result] dict. *)
Definition initial_result : ValuationResult := {|
  bond_floor := 0;
  put_value := 0;
  call_option_value := 0;
  revision_value := 0;
  redemption_loss := 0;
  total_value := 0;
  current_price := Fin 0;
  value_deviation := Fin 0
|}.

Definition set_current_price (v : pyfloat) (res : ValuationResult) :
    ValuationResult := {|
  bond_floor := bond_floor res;
  put_value := put_value res;
  call_option_value := call_option_value res;
  revision_value := revision_value res;
  redemption_loss := redemption_loss res;
  total_value := total_value res;
  current_price := v;
  value_deviation := value_deviation res
|}.

Definition calculate_shengtang_value (row : Series) (config : Config) :
    option ValuationResult :=
  let result := initial_result in
  let price := row_get (price row) (Fin 100) in
  let stock_price := row_get (stock_price row) (Fin 0) in
  let convert_price := row_get (convert_price row) (Fin 0) in
  let years_to_maturity := row_get (years_to_maturity row) (Fin 3) in
  let rating := row_get (rating row) (RatingStr "AA") in
  let premium_rate := row_get (premium_rate row) (Fin 0) in
  let result := set_current_price price result in
  let stock_price :=
    if isna stock_price || fle stock_price 0 then
      if fgt convert_price 0 then fmap2 Rmult convert_price (Fin 0.8)
      else Fin 10
    else stock_price in
  if isna convert_price || fle convert_price 0 then Some result
  else
    let years_to_maturity :=
      if isna years_to_maturity || fle years_to_maturity 0 then Fin 0.1
      else years_to_maturity in
    (* the three cells hold numbers from here on *)
    let stock_price := number stock_price in
    let convert_price := number convert_price in
    let years_to_maturity := number years_to_maturity in
    let r := risk_free_rate config in
    let credit_spread := get_credit_spread rating in
    let discount_rate := r + credit_spread in
    let sigma := default_volatility config * volatility_adjustment config in
    let years_to_put := Rmax 0 (years_to_maturity - 2) in
    let conversion_probs :=
      map (fun year =>
             let t := Rmin (INR year) years_to_maturity in
             calculate_conversion_probability stock_price convert_price t
               sigma (conversion_threshold config))
          (py_range 1 (py_int years_to_maturity + 2)) in
    bond_floor <-
      calculate_bond_floor 100 None years_to_maturity discount_rate
        (Some conversion_probs) ;;
    let put_value :=
      calculate_put_value 100 103 years_to_put discount_rate 0.1 in
    let call_option :=
      calculate_call_option_value stock_price convert_price
        years_to_maturity sigma r in
    let revision_value :=
      calculate_downward_revision_value stock_price convert_price
        years_to_maturity sigma r years_to_put in
    let redemption_loss :=
      calculate_forced_redemption_loss stock_price convert_price
        years_to_maturity sigma r 1.30 in
    let base_value := Rmax bond_floor (bond_floor + put_value) in
    let total_value :=
      base_value + call_option + revision_value - redemption_loss in
    Some {|
      bond_floor := bond_floor;
      put_value := put_value;
      call_option_value := call_option;
      revision_value := revision_value;
      redemption_loss := redemption_loss;
      total_value := total_value;
      current_price := price;
      value_deviation :=
        if Rlt_b 0 total_value then
          match price with
          | Fin p => Fin (((p - total_value) / total_value) * 100)
          | NaN => NaN
          end
        else Fin 0
    |}.

(** [DataFrame.sort_values(by, ascending=True)] with the default algorithm
    ([kind='quicksort'], which pandas does not document as stable): the rows
    rearranged, ascending in the key. *)
Variable sort_values : (Entry -> pyfloat) -> list Entry -> list Entry.

Hypothesis sort_values_permutation :
  forall key l, Permutation l (sort_values key l).
Hypothesis sort_values_sorted :
  forall key l, Sorted (fun a b => key_le (key a) (key b)) (sort_values key l).

Definition strategy_shengtang (df : DataFrame) (top_n : Z)
    (max_premium_rate : R) : option (list Entry) :=
  valuation_results <-
    mapM (fun row =>
            calculate_shengtang_value (series_of (columns df) row)
              SHENGTANG_CONFIG)
         (rows df) ;;
  (* an empty list of results makes a frame without columns, and
     [df['st_total_value']] raises KeyError *)
  match valuation_results with
  | [] => None
  | _ =>
      let df0 := enumerate_from 0 (rows df) valuation_results in
      let df1 := filter (fun e => Rlt_b 0 (st_total_value e)) df0 in
      let df2 := filter (fun e => flt (st_value_deviation e) 0) df1 in
      let df3 :=
        if has_premium_rate (columns df) then
          filter (fun e => flt (cell_premium_rate (cells e)) max_premium_rate)
                 df2
        else df2 in
      let df4 := sort_values st_value_deviation df3 in
      Some (head df4 top_n)
  end.

(** * Properties *)

(** ** Comparisons *)

Lemma Rle_b_true x y : Rle_b x y = true <-> x <= y.
Proof. unfold Rle_b; destruct (Rle_dec x y); split; auto; discriminate. Qed.

Lemma Rle_b_false x y : Rle_b x y = false <-> y < x.
Proof.
  unfold Rle_b; destruct (Rle_dec x y); split; intros; try discriminate; lra.
Qed.

Lemma Rlt_b_true x y : Rlt_b x y = true <-> x < y.
Proof. unfold Rlt_b; destruct (Rlt_dec x y); split; auto; discriminate. Qed.

Lemma Rlt_b_false x y : Rlt_b x y = false <-> y <= x.
Proof.
  unfold Rlt_b; destruct (Rlt_dec x y); split; intros; try discriminate; lra.
Qed.

Lemma Req_b_true x y : Req_b x y = true <-> x = y.
Proof.
  unfold Req_b; destruct (Req_dec_T x y); split; auto; discriminate.
Qed.

Lemma Req_b_false x y : Req_b x y = false <-> x <> y.
Proof.
  unfold Req_b; destruct (Req_dec_T x y); split; intros H;
    [discriminate H | now elim H | assumption | reflexivity].
Qed.

(** Case analysis on a comparison, leaving the order fact in the context. *)
Ltac case_cmp x y :=
  match goal with
  | |- context [Rle_b x y] =>
      let H := fresh "Hcmp" in
      destruct (Rle_b x y) eqn:H;
      [apply Rle_b_true in H | apply Rle_b_false in H]
  | |- context [Rlt_b x y] =>
      let H := fresh "Hcmp" in
      destruct (Rlt_b x y) eqn:H;
      [apply Rlt_b_true in H | apply Rlt_b_false in H]
  end.

Lemma Rmax_0_nonneg x : 0 <= Rmax 0 x.
Proof. apply Rmax_l. Qed.

(** ** The Python helpers on small inputs *)

Example strip_example : strip (String (ascii_of_nat 9) " aa  ") = "aa"%string.
Proof. reflexivity. Qed.

Example upper_example : upper "Aa+" = "AA+"%string.
Proof. reflexivity. Qed.

Example py_index_last : py_index [1; 2; 3]%nat (-1) = Some 3%nat.
Proof. reflexivity. Qed.

Example py_index_error : py_index (@nil nat) (-1) = None.
Proof. reflexivity. Qed.

Example py_range_example : py_range 1 4 = [1; 2; 3]%nat.
Proof. reflexivity. Qed.

Example head_example : head [1; 2; 3]%nat 2 = [1; 2]%nat.
Proof. reflexivity. Qed.

Example head_negative : head [1; 2; 3]%nat (-1) = [1; 2]%nat.
Proof. reflexivity. Qed.

(** ** Credit spreads *)

Lemma credit_spread_default_item :
  dict_item (credit_spread SHENGTANG_CONFIG) "default" = Some 0.025.
Proof. reflexivity. Qed.

Lemma credit_spread_default_value : credit_spread_default = 0.025.
Proof. reflexivity. Qed.

(** No upper-cased token is the key ["default"]. *)
Lemma upper_ascii_not_lower c :
  let n := nat_of_ascii (upper_ascii c) in ~ (97 <= n <= 122)%nat.
Proof.
  unfold upper_ascii.
  destruct ((97 <=? nat_of_ascii c) && (nat_of_ascii c <=? 122))%nat eqn:E;
    cbn zeta.
  - apply andb_true_iff in E as [E1 E2].
    apply Nat.leb_le in E1, E2.
    rewrite nat_ascii_embedding by lia. lia.
  - intros [H1 H2].
    apply Nat.leb_le in H1, H2. rewrite H1, H2 in E. discriminate.
Qed.

Lemma upper_not_default s : upper s <> "default"%string.
Proof.
  destruct s as [|c s]; cbn; [discriminate|].
  intros H. injection H as Hc _.
  pose proof (upper_ascii_not_lower c) as Hn. cbn zeta in Hn.
  rewrite Hc in Hn. apply Hn. cbn. lia.
Qed.

Lemma dict_item_not_key (d : dict) k :
  ~ In k (map fst d) -> dict_item d k = None.
Proof.
  induction d as [|[k' v] d IH]; cbn; intros Hk; [reflexivity|].
  destruct (String.eqb_spec k k') as [->|Hne].
  - exfalso; apply Hk; now left.
  - apply IH. intros Hin. apply Hk. now right.
Qed.

Lemma dict_item_in (d : dict) k v : dict_item d k = Some v -> In v (map snd d).
Proof.
  induction d as [|[k' v'] d IH]; cbn; [discriminate|].
  destruct (String.eqb k k').
  - intros [= ->]. now left.
  - intros H. right. now apply IH.
Qed.

Lemma get_credit_spread_in rating : In (get_credit_spread rating) spread_values.
Proof.
  destruct rating as [|s]; cbn [get_credit_spread].
  - rewrite credit_spread_default_value. unfold spread_values. cbn.
    do 8 right. now left.
  - unfold dict_get.
    destruct (dict_item (credit_spread SHENGTANG_CONFIG) (upper (strip s)))
      eqn:E.
    + eapply dict_item_in; eassumption.
    + rewrite credit_spread_default_value. unfold spread_values. cbn.
      do 8 right. now left.
Qed.

Lemma spread_values_bounds v : In v spread_values -> 0 < v <= 0.07.
Proof.
  unfold spread_values. cbn.
  intros H. repeat (destruct H as [<-|H]; [lra|]). contradiction.
Qed.

Lemma get_credit_spread_bounds rating : 0 < get_credit_spread rating <= 0.07.
Proof. apply spread_values_bounds, get_credit_spread_in. Qed.

(** C10.  On an ASCII token [get_credit_spread] looks up the stripped,
    upper-cased token, so that [" aa "] and ["Aa"] get the AA spread 0.015;
    a missing rating, and an ASCII token that after normalisation is none of
    the eight rating keys, get the default 0.025; the result is always one
    of the nine spreads of the table, which are positive and at most
    0.07. *)
Theorem get_credit_spread_spec :
  (forall s,
      isascii s = true ->
      get_credit_spread (RatingStr s)
      = dict_get (credit_spread SHENGTANG_CONFIG) (upper (strip s)) 0.025)
  /\ get_credit_spread (RatingStr " aa ") = 0.015
  /\ get_credit_spread (RatingStr "Aa") = 0.015
  /\ get_credit_spread RatingNaN = 0.025
  /\ (forall s,
        isascii s = true ->
        ~ In (upper (strip s)) rating_keys ->
        get_credit_spread (RatingStr s) = 0.025)
  /\ (forall rating,
        In (get_credit_spread rating) spread_values
        /\ 0 < get_credit_spread rating <= 0.07)
  /\ List.length spread_values = 9%nat.
Proof.
  split; [reflexivity|].
  split; [reflexivity|].
  split; [reflexivity|].
  split; [reflexivity|].
  split; [|split; [|reflexivity]].
  - intros s _ Hs. cbn [get_credit_spread]. unfold dict_get.
    rewrite dict_item_not_key; [reflexivity|].
    cbn. intros H.
    repeat (destruct H as [H|H];
            [apply Hs; rewrite <- H; cbn; tauto|]).
    destruct H as [H|[]]. symmetry in H. revert H. apply upper_not_default.
  - intros rating. split.
    + apply get_credit_spread_in.
    + apply get_credit_spread_bounds.
Qed.

(** ** Put value *)

(** C9.  [calculate_put_value] does not read [face_value]: two calls that
    agree on the other four arguments return the same value. *)
Theorem calculate_put_value_ignores_face_value :
  forall face_value face_value' put_price years_to_put discount_rate
         put_probability,
    calculate_put_value face_value put_price years_to_put discount_rate
      put_probability
    = calculate_put_value face_value' put_price years_to_put discount_rate
        put_probability.
Proof. intros. unfold calculate_put_value. reflexivity. Qed.

Lemma Rpower_pos x y : 0 < Rpower x y.
Proof. unfold Rpower. apply exp_pos. Qed.

Lemma calculate_put_value_nonneg face put_price years_to_put d prob :
  0 <= put_price -> 0 <= prob ->
  0 <= calculate_put_value face put_price years_to_put d prob.
Proof.
  intros Hp Hq. unfold calculate_put_value, py_pow.
  case_cmp years_to_put 0.
  - now apply Rmult_le_pos.
  - apply Rmult_le_pos; [|assumption].
    apply Rmult_le_pos; [assumption|].
    left. apply Rinv_0_lt_compat, Rpower_pos.
Qed.

(** ** Pricer *)

Lemma degenerate_guard_false S K T sigma :
  0 < T -> 0 < sigma -> 0 < S -> 0 < K ->
  Rle_b T 0 || Rle_b sigma 0 || Rle_b S 0 || Rle_b K 0 = false.
Proof.
  intros HT Hs HS HK.
  assert (E : forall x, 0 < x -> Rle_b x 0 = false)
    by (intros x Hx; apply Rle_b_false; exact Hx).
  now rewrite !E.
Qed.

Lemma black_scholes_call_eq S K T r sigma :
  0 < T -> 0 < sigma -> 0 < S -> 0 < K ->
  black_scholes_call S K T r sigma
  = Rmax 0 (S * norm_cdf (bs_d1 S K T r sigma)
            - K * exp (- r * T) * norm_cdf (bs_d2 S K T r sigma)).
Proof.
  intros. unfold black_scholes_call.
  now rewrite degenerate_guard_false.
Qed.

Lemma black_scholes_put_eq S K T r sigma :
  0 < T -> 0 < sigma -> 0 < S -> 0 < K ->
  black_scholes_put S K T r sigma
  = Rmax 0 (K * exp (- r * T) * norm_cdf (- bs_d2 S K T r sigma)
            - S * norm_cdf (- bs_d1 S K T r sigma)).
Proof.
  intros. unfold black_scholes_put.
  now rewrite degenerate_guard_false.
Qed.

(** The increasing ratio, between two points [s] apart. *)
Lemma norm_cdf_shift d s :
  0 <= s ->
  norm_cdf (d - s) * exp (- (s * d - s ^ 2 / 2)) <= norm_cdf d.
Proof.
  intros Hs.
  assert (Hm := norm_cdf_mills (d - s) d ltac:(lra)).
  assert (He : exp ((d - s) ^ 2 / 2)
               = exp (- (s * d - s ^ 2 / 2)) * exp (d ^ 2 / 2)).
  { rewrite <- exp_plus. f_equal. field. }
  rewrite He in Hm.
  assert (Hpos := exp_pos (d ^ 2 / 2)).
  apply Rmult_le_reg_r with (exp (d ^ 2 / 2)); [assumption|].
  lra.
Qed.

(** [sigma * sqrt T * d1 - (sigma * sqrt T)^2 / 2] is the log-moneyness
    with carry. *)
Lemma bs_d1_moneyness S K T r sigma :
  0 < T -> 0 < sigma ->
  let s := sigma * sqrt T in
  s * bs_d1 S K T r sigma - s ^ 2 / 2 = ln (S / K) + r * T.
Proof.
  intros HT Hsig s.
  assert (Hq : 0 < sqrt T) by now apply sqrt_lt_R0.
  assert (Hqq : sqrt T * sqrt T = T) by (apply sqrt_sqrt; lra).
  unfold bs_d1. subst s.
  replace ((sigma * sqrt T) ^ 2) with (sigma ^ 2 * (sqrt T * sqrt T)) by ring.
  rewrite Hqq. replace 0.5 with (/ 2) by lra. field. split; lra.
Qed.

Lemma exp_moneyness S K T r :
  0 < S -> 0 < K ->
  exp (ln (S / K) + r * T) = S / K * exp (r * T).
Proof.
  intros HS HK. rewrite exp_plus, exp_ln; [reflexivity|].
  now apply Rdiv_lt_0_compat.
Qed.

Lemma exp_opp_mult x : exp (- x) * exp x = 1.
Proof. rewrite <- exp_plus. replace (- x + x) with 0 by ring. apply exp_0. Qed.

(** The call price before the clamp is not negative. *)
Lemma call_price_nonneg S K T r sigma :
  0 < T -> 0 < sigma -> 0 < S -> 0 < K ->
  0 <= S * norm_cdf (bs_d1 S K T r sigma)
       - K * exp (- r * T) * norm_cdf (bs_d2 S K T r sigma).
Proof.
  intros HT Hsig HS HK.
  assert (Hq : 0 < sqrt T) by now apply sqrt_lt_R0.
  assert (Hs : 0 <= sigma * sqrt T) by (apply Rmult_le_pos; lra).
  pose proof (norm_cdf_shift (bs_d1 S K T r sigma) (sigma * sqrt T) Hs) as H.
  rewrite (bs_d1_moneyness S K T r sigma HT Hsig) in H.
  fold (bs_d2 S K T r sigma) in H.
  rewrite exp_Ropp, exp_moneyness in H by assumption.
  assert (Her := exp_pos (r * T)).
  assert (Hinv : / (S / K * exp (r * T)) = K / S * exp (- (r * T))).
  { rewrite exp_Ropp. field. repeat split; lra. }
  rewrite Hinv in H.
  replace (- r * T) with (- (r * T)) by ring.
  apply Rmult_le_compat_l with (r := S) in H; [|lra].
  replace (S * (norm_cdf (bs_d2 S K T r sigma) * (K / S * exp (- (r * T)))))
    with (K * exp (- (r * T)) * norm_cdf (bs_d2 S K T r sigma)) in H
    by (field; lra).
  lra.
Qed.

(** The put price before the clamp is not negative. *)
Lemma put_price_nonneg S K T r sigma :
  0 < T -> 0 < sigma -> 0 < S -> 0 < K ->
  0 <= K * exp (- r * T) * norm_cdf (- bs_d2 S K T r sigma)
       - S * norm_cdf (- bs_d1 S K T r sigma).
Proof.
  intros HT Hsig HS HK.
  assert (Hq : 0 < sqrt T) by now apply sqrt_lt_R0.
  assert (Hs : 0 <= sigma * sqrt T) by (apply Rmult_le_pos; lra).
  pose proof (norm_cdf_shift (- bs_d2 S K T r sigma) (sigma * sqrt T) Hs) as H.
  replace (- bs_d2 S K T r sigma - sigma * sqrt T)
    with (- bs_d1 S K T r sigma) in H by (unfold bs_d2; ring).
  replace (- (sigma * sqrt T * - bs_d2 S K T r sigma
              - (sigma * sqrt T) ^ 2 / 2))
    with (sigma * sqrt T * bs_d1 S K T r sigma - (sigma * sqrt T) ^ 2 / 2)
    in H by (unfold bs_d2; field).
  rewrite (bs_d1_moneyness S K T r sigma HT Hsig) in H.
  rewrite exp_moneyness in H by assumption.
  assert (Her := exp_pos (- (r * T))).
  replace (- r * T) with (- (r * T)) by ring.
  apply Rmult_le_compat_l with (r := K * exp (- (r * T))) in H.
  2:{ apply Rmult_le_pos; lra. }
  replace (K * exp (- (r * T))
           * (norm_cdf (- bs_d1 S K T r sigma) * (S / K * exp (r * T))))
    with (S * norm_cdf (- bs_d1 S K T r sigma)
          * (exp (- (r * T)) * exp (r * T))) in H by (field; lra).
  rewrite exp_opp_mult in H. lra.
Qed.

(** C6.  Put-call parity: for positive [S], [K], [T] and [sigma] the call
    price minus the put price is [S - K * exp (- r * T)]; the two clamps
    [max(0, .)] do not bind. *)
Theorem put_call_parity :
  forall S K T r sigma,
    0 < S -> 0 < K -> 0 < T -> 0 < sigma ->
    black_scholes_call S K T r sigma - black_scholes_put S K T r sigma
    = S - K * exp (- r * T).
Proof.
  intros S K T r sigma HS HK HT Hsig.
  rewrite black_scholes_call_eq, black_scholes_put_eq by assumption.
  rewrite !Rmax_right
    by (apply call_price_nonneg || apply put_price_nonneg; assumption).
  rewrite !norm_cdf_symmetric. ring.
Qed.

Lemma black_scholes_call_nonneg S K T r sigma :
  0 <= black_scholes_call S K T r sigma.
Proof.
  unfold black_scholes_call.
  destruct (Rle_b T 0 || Rle_b sigma 0 || Rle_b S 0 || Rle_b K 0);
    apply Rmax_0_nonneg.
Qed.

Lemma ln_nonpos x : x <= 0 -> ln x = 0.
Proof.
  intros Hx. unfold ln. destruct (Rlt_dec 0 x); [exfalso; lra|reflexivity].
Qed.

Lemma ln_le_compat x y : 0 < x -> x <= y -> ln x <= ln y.
Proof.
  intros Hx [Hlt| ->]; [|lra].
  left. now apply ln_increasing.
Qed.

(** [ln (S / q)] does not decrease with [S > 0], whatever [q] is. *)
Lemma ln_ratio_monotone S1 S2 q :
  0 < S1 -> S1 <= S2 -> ln (S1 / q) <= ln (S2 / q).
Proof.
  intros H1 H12.
  destruct (Rlt_dec 0 q) as [Hq|Hq].
  - apply ln_le_compat.
    + now apply Rdiv_lt_0_compat.
    + unfold Rdiv. apply Rmult_le_compat_r; [|assumption].
      left. now apply Rinv_0_lt_compat.
  - assert (Hi : / q <= 0).
    { destruct (Req_dec q 0) as [->|Hne].
      - rewrite Rinv_0. lra.
      - left. apply Rinv_lt_0_compat. lra. }
    rewrite !ln_nonpos; [lra| |]; unfold Rdiv.
    + rewrite <- (Rmult_0_r S2). apply Rmult_le_compat_l; lra.
    + rewrite <- (Rmult_0_r S1). apply Rmult_le_compat_l; lra.
Qed.

Lemma calculate_conversion_probability_range S K T sigma threshold :
  0 <= calculate_conversion_probability S K T sigma threshold <= 1.
Proof.
  unfold calculate_conversion_probability.
  destruct (Rle_b T 0 || Rle_b sigma 0).
  - destruct (Rle_b threshold (S / K * 100)); lra.
  - apply norm_cdf_range.
Qed.

(** In the real-valued model the probability does not decrease with the
    stock price. *)
Lemma conversion_probability_nondecreasing K T sigma threshold S1 S2 :
  0 < K -> 0 < S1 -> S1 <= S2 ->
  calculate_conversion_probability S1 K T sigma threshold
  <= calculate_conversion_probability S2 K T sigma threshold.
Proof.
  intros HK H1 H12.
  unfold calculate_conversion_probability.
  destruct (Rle_b T 0 || Rle_b sigma 0) eqn:Hdeg.
  - (* degenerate branch: the indicator of [threshold <= S / K * 100] *)
    assert (Hcv : S1 / K * 100 <= S2 / K * 100).
    { unfold Rdiv. apply Rmult_le_compat_r; [lra|].
      apply Rmult_le_compat_r; [|assumption].
      left. now apply Rinv_0_lt_compat. }
    case_cmp threshold (S1 / K * 100).
    + case_cmp threshold (S2 / K * 100); lra.
    + case_cmp threshold (S2 / K * 100); lra.
  - (* [d2] grows with [ln S], and [norm_cdf] is monotone *)
    apply orb_false_iff in Hdeg as [HT Hsig].
    apply Rle_b_false in HT, Hsig.
    assert (Hq : 0 < sqrt T) by now apply sqrt_lt_R0.
    assert (Hs : 0 < sigma * sqrt T) by now apply Rmult_lt_0_compat.
    apply norm_cdf_monotone.
    unfold Rdiv. apply Rmult_le_compat_r.
    + left. now apply Rinv_0_lt_compat.
    + apply Rplus_le_compat_r. now apply ln_ratio_monotone.
Qed.

(** For positive [S] and [K], and a positive [threshold] wherever the
    logarithm is taken, no float operation fails, and the code returns the
    number of the real-valued model. *)
Lemma calculate_conversion_probability_checked_defined S K T sigma threshold :
  0 < K -> 0 < S ->
  0 < threshold \/ T <= 0 \/ sigma <= 0 ->
  calculate_conversion_probability_checked S K T sigma threshold
  = Some (Fin (calculate_conversion_probability S K T sigma threshold)).
Proof.
  intros HK HS Hdom.
  unfold calculate_conversion_probability_checked,
    calculate_conversion_probability.
  destruct (Rle_b T 0 || Rle_b sigma 0) eqn:Hdeg.
  - rewrite (proj2 (Req_b_false K 0)) by lra. reflexivity.
  - apply orb_false_iff in Hdeg as [HT Hsig].
    apply Rle_b_false in HT, Hsig.
    assert (Hth : 0 < threshold) by (destruct Hdom as [H|[H|H]]; lra).
    assert (Hreq : 0 < K * threshold / 100).
    { apply Rdiv_lt_0_compat; [|lra]. now apply Rmult_lt_0_compat. }
    assert (Hratio : 0 < S / (K * threshold / 100))
      by now apply Rdiv_lt_0_compat.
    rewrite (proj2 (Req_b_false (K * threshold / 100) 0)) by lra.
    cbv zeta.
    rewrite (proj2 (Rlt_b_false (S / (K * threshold / 100)) 0)) by lra.
    rewrite (proj2 (Req_b_false (S / (K * threshold / 100)) 0)) by lra.
    reflexivity.
Qed.

(** C7, as the code has it.  For a fixed [K > 0], any [T] and [sigma], and
    a [threshold] that is positive whenever [T > 0] and [sigma > 0],
    [calculate_conversion_probability] returns a number for every stock
    price [S > 0]; that number does not decrease with [S] and lies in
    [[0, 1]]. *)
Theorem calculate_conversion_probability_monotone :
  forall K T sigma threshold S1 S2,
    0 < K -> 0 < S1 -> S1 <= S2 ->
    0 < threshold \/ T <= 0 \/ sigma <= 0 ->
    exists p1 p2,
      calculate_conversion_probability_checked S1 K T sigma threshold
      = Some (Fin p1)
      /\ calculate_conversion_probability_checked S2 K T sigma threshold
         = Some (Fin p2)
      /\ p1 <= p2
      /\ 0 <= p1 <= 1
      /\ 0 <= p2 <= 1.
Proof.
  intros K T sigma threshold S1 S2 HK H1 H12 Hdom.
  exists (calculate_conversion_probability S1 K T sigma threshold),
    (calculate_conversion_probability S2 K T sigma threshold).
  split; [|split; [|split; [|split]]].
  - now apply calculate_conversion_probability_checked_defined.
  - apply calculate_conversion_probability_checked_defined; trivial; lra.
  - now apply conversion_probability_nondecreasing.
  - apply calculate_conversion_probability_range.
  - apply calculate_conversion_probability_range.
Qed.

(** ** Bond floor *)

Lemma py_index_clamped {A : Type} (l : list A) (year : nat) (d : A) :
  (1 <= year)%nat -> l <> [] ->
  py_index l (Z.min (Z.of_nat year - 1) (Z.of_nat (List.length l) - 1))
  = Some (nth (Nat.min (year - 1) (List.length l - 1)) l d).
Proof.
  intros Hy Hl.
  assert (Hlen : (1 <= List.length l)%nat)
    by (destruct l; [contradiction|cbn; lia]).
  unfold py_index.
  replace (Z.min (Z.of_nat year - 1) (Z.of_nat (List.length l) - 1))
    with (Z.of_nat (Nat.min (year - 1) (List.length l - 1))) by lia.
  destruct (Z.leb_spec 0 (Z.of_nat (Nat.min (year - 1) (List.length l - 1))));
    [|lia].
  rewrite Nat2Z.id. apply nth_error_nth'. lia.
Qed.

Lemma py_range_from_1 n : py_range 1 (n + 1) = seq 1 (Z.to_nat n).
Proof. unfold py_range. f_equal. f_equal. lia. Qed.

Lemma Zceil_pos T : 0 < T -> (1 <= Zceil T)%Z.
Proof.
  intros HT. destruct (Zceil_bound T) as [_ Hu].
  assert (H : 0 < IZR (Zceil T)) by lra.
  apply lt_IZR in H. lia.
Qed.

(** Past maturity no year of the range contributes. *)
Lemma filter_beyond T a n :
  T < INR a -> filter (fun y => Rle_b (INR y) T) (seq a n) = [].
Proof.
  revert a. induction n as [|n IH]; intros a Ha; cbn; [reflexivity|].
  case_cmp (INR a) T; [lra|].
  apply IH. rewrite S_INR. lra.
Qed.

(** The loop without conversion: the probability left stays put and the
    coupons of the years up to maturity add up. *)
Lemma bond_floor_loop_no_conversion face coupons probs T d :
  coupons <> [] -> probs <> [] -> Forall (fun q => q = 0) probs ->
  forall n a pv rp,
    (1 <= a)%nat ->
    exists pv' rp',
      bond_floor_loop face coupons probs T d (seq a n) pv rp = Some (pv', rp')
      /\ rp' = rp
      /\ pv' = pv + rp * fold_right Rplus 0
                 (map (coupon_term face coupons d)
                    (filter (fun y => Rle_b (INR y) T) (seq a n))).
Proof.
  intros Hc Hp Hz.
  induction n as [|n IH]; intros a pv rp Ha.
  - cbn. exists pv, rp. repeat split. lra.
  - cbn [seq bond_floor_loop].
    case_cmp T (INR a).
    + change (a :: seq (Datatypes.S a) n) with (seq a (Datatypes.S n)).
      rewrite (filter_beyond T a (Datatypes.S n) Hcmp). cbn.
      exists pv, rp. repeat split. lra.
    + rewrite (py_index_clamped coupons a 0 Ha Hc).
      rewrite (py_index_clamped probs a 0 Ha Hp).
      cbn [bind].
      assert (Hq : nth (Nat.min (a - 1) (List.length probs - 1)) probs 0 = 0).
      { rewrite Forall_forall in Hz. apply Hz. apply nth_In.
        destruct probs; [contradiction|cbn; lia]. }
      rewrite Hq.
      edestruct (IH (Datatypes.S a)) as (pv' & rp' & Hloop & Hrp & Hpv);
        [lia|].
      exists pv', rp'. split; [exact Hloop|].
      split; [rewrite Hrp; ring|].
      rewrite Hpv. cbn [filter].
      assert (Hle : Rle_b (INR a) T = true) by now apply Rle_b_true.
      rewrite Hle. cbn [map fold_right]. unfold coupon_term, Rdiv. ring.
Qed.

Lemma coupon_schedule_nonempty c : coupon_schedule c <> [].
Proof. destruct c as [[|x l]|]; cbn; discriminate. Qed.

(** C8.  Without conversion [calculate_bond_floor] is the plain fixed-income
    present value: for a discount rate above -1 and [T > 0], the coupons of
    the whole years up to [T], each discounted over its years, plus the face
    value discounted over [T]; for [T <= 0] it is the face value. *)
Theorem calculate_bond_floor_no_conversion :
  forall face coupon_rates discount_rate T conversion_probs,
    -1 < discount_rate ->
    no_conversion conversion_probs ->
    (0 < T ->
     calculate_bond_floor face coupon_rates T discount_rate conversion_probs
     = Some (plain_present_value face (coupon_schedule coupon_rates)
               discount_rate T))
    /\ (T <= 0 ->
        calculate_bond_floor face coupon_rates T discount_rate conversion_probs
        = Some face).
Proof.
  intros face coupon_rates d T probs Hd Hnc. split; intros HT.
  - unfold calculate_bond_floor.
    assert (E : Rle_b T 0 = false) by now apply Rle_b_false.
    rewrite E, py_range_from_1.
    pose proof (Zceil_pos T HT) as Hn.
    set (coupons := match coupon_rates with
                    | Some l =>
                        if (Z.of_nat (List.length l) =? 0)%Z
                        then default_coupon_rates else l
                    | None => default_coupon_rates
                    end).
    assert (Hcs : coupons = coupon_schedule coupon_rates).
    { subst coupons. destruct coupon_rates as [[|x l]|]; reflexivity. }
    set (probs' := match probs with
                   | Some l => l
                   | None => repeat 0.0 (Z.to_nat (Zceil T))
                   end).
    assert (Hp : probs' <> [] /\ Forall (fun q => q = 0) probs').
    { subst probs'. destruct probs as [l|]; [exact Hnc|]. split.
      - destruct (Z.to_nat (Zceil T)) eqn:En; [lia|discriminate].
      - apply Forall_forall. intros q Hq. apply repeat_spec in Hq. lra. }
    destruct Hp as [Hp1 Hp2].
    destruct (bond_floor_loop_no_conversion face coupons probs' T d
                ltac:(rewrite Hcs; apply coupon_schedule_nonempty) Hp1 Hp2
                (Z.to_nat (Zceil T)) 1%nat 0 1.0 ltac:(lia))
      as (pv' & rp' & Hloop & Hrp & Hpv).
    rewrite Hloop. cbn [bind]. f_equal.
    rewrite Hpv, Hrp, <- Hcs.
    unfold plain_present_value, py_pow, coupon_term, Rdiv. lra.
  - unfold calculate_bond_floor.
    assert (E : Rle_b T 0 = true) by now apply Rle_b_true.
    now rewrite E.
Qed.

(** The loop does not fail when both schedules have an entry, and it keeps
    the present value and the probability left non-negative. *)
Lemma bond_floor_loop_some face coupons probs T d :
  coupons <> [] -> probs <> [] ->
  forall years pv rp,
    Forall (fun y => (1 <= y)%nat) years ->
    exists st,
      bond_floor_loop face coupons probs T d years pv rp = Some st.
Proof.
  intros Hc Hp.
  induction years as [|y years IH]; intros pv rp Hy; cbn [bond_floor_loop].
  - eauto.
  - inversion Hy as [|? ? Hy1 Hys]; subst.
    destruct (Rlt_b T (INR y)); [eauto|].
    rewrite (py_index_clamped coupons y 0 Hy1 Hc).
    rewrite (py_index_clamped probs y 0 Hy1 Hp).
    cbn [bind]. apply IH. assumption.
Qed.

Lemma bond_floor_loop_nonneg face coupons probs T d :
  0 <= face ->
  coupons <> [] -> Forall (fun c => 0 <= c) coupons ->
  probs <> [] -> Forall (fun q => 0 <= q <= 1) probs ->
  0 < 1 + d ->
  forall years pv rp pv' rp',
    Forall (fun y => (1 <= y)%nat) years ->
    0 <= pv -> 0 <= rp ->
    bond_floor_loop face coupons probs T d years pv rp = Some (pv', rp') ->
    0 <= pv' /\ 0 <= rp'.
Proof.
  intros Hf Hc Hcn Hp Hpr Hd.
  induction years as [|y years IH]; intros pv rp pv' rp' Hy Hpv Hrp;
    cbn [bond_floor_loop].
  - intros [= <- <-]. now split.
  - inversion Hy as [|? ? Hy1 Hys]; subst.
    destruct (Rlt_b T (INR y)); [intros [= <- <-]; now split|].
    rewrite (py_index_clamped coupons y 0 Hy1 Hc).
    rewrite (py_index_clamped probs y 0 Hy1 Hp).
    cbn [bind].
    set (c := nth (Nat.min (y - 1) (List.length coupons - 1)) coupons 0).
    set (q := nth (Nat.min (y - 1) (List.length probs - 1)) probs 0).
    assert (Hcq : 0 <= c).
    { rewrite Forall_forall in Hcn. apply Hcn. apply nth_In.
      destruct coupons; [contradiction|cbn; lia]. }
    assert (Hq : 0 <= q <= 1).
    { rewrite Forall_forall in Hpr. apply Hpr. apply nth_In.
      destruct probs; [contradiction|cbn; lia]. }
    apply IH; [assumption| |].
    + assert (0 <= face * c * rp * (1 - q) / (1 + d) ^ y); [|lra].
      apply Rmult_le_pos.
      * repeat apply Rmult_le_pos; lra.
      * left. apply Rinv_0_lt_compat, pow_lt, Hd.
    + apply Rmult_le_pos; lra.
Qed.

Lemma py_range_ge_1 n : Forall (fun y => (1 <= y)%nat) (py_range 1 n).
Proof.
  unfold py_range. apply Forall_forall. intros y Hy.
  apply in_seq in Hy. lia.
Qed.

Lemma default_coupon_rates_nonneg :
  Forall (fun c => 0 <= c) default_coupon_rates.
Proof. unfold default_coupon_rates. repeat constructor; lra. Qed.

(** The bond floor of the default schedule, with probabilities for at least
    one year: it is computed, and it is not negative when the probabilities
    are probabilities. *)
Lemma calculate_bond_floor_default_some face T d probs :
  probs <> [] ->
  exists bf, calculate_bond_floor face None T d (Some probs) = Some bf.
Proof.
  intros Hp. unfold calculate_bond_floor.
  destruct (Rle_b T 0); [eauto|].
  destruct (bond_floor_loop_some face default_coupon_rates probs T d
              ltac:(discriminate) Hp
              (py_range 1 (Zceil T + 1)) 0 1.0 (py_range_ge_1 _))
    as [[pv rp] Hloop].
  rewrite Hloop. cbn [bind]. eauto.
Qed.

Lemma calculate_bond_floor_default_nonneg face T d probs bf :
  0 <= face -> 0 < 1 + d ->
  probs <> [] -> Forall (fun q => 0 <= q <= 1) probs ->
  calculate_bond_floor face None T d (Some probs) = Some bf ->
  0 <= bf.
Proof.
  intros Hf Hd Hp Hpr. unfold calculate_bond_floor.
  destruct (Rle_b T 0); [intros [= <-]; assumption|].
  destruct (bond_floor_loop face default_coupon_rates probs T d
              (py_range 1 (Zceil T + 1)) 0 1.0) as [[pv rp]|] eqn:Hloop;
    cbn [bind]; [|discriminate].
  intros [= <-].
  destruct (bond_floor_loop_nonneg face default_coupon_rates probs T d
              Hf ltac:(discriminate) default_coupon_rates_nonneg Hp Hpr Hd
              (py_range 1 (Zceil T + 1)) 0 1.0 pv rp (py_range_ge_1 _)
              ltac:(lra) ltac:(lra) Hloop)
    as [Hpv Hrp].
  assert (0 <= face * rp / py_pow (1 + d) T); [|lra].
  apply Rmult_le_pos.
  - now apply Rmult_le_pos.
  - left. apply Rinv_0_lt_compat, Rpower_pos.
Qed.

(** ** Option values *)

Lemma calculate_call_option_value_nonneg S K T sigma r :
  0 < K -> 0 <= calculate_call_option_value S K T sigma r.
Proof.
  intros HK. unfold calculate_call_option_value.
  apply Rmult_le_pos; [apply black_scholes_call_nonneg|].
  apply Rmult_le_pos; [lra|]. left. now apply Rinv_0_lt_compat.
Qed.

Lemma calculate_downward_revision_value_nonneg S K T sigma r years_to_put :
  0 <= calculate_downward_revision_value S K T sigma r years_to_put.
Proof.
  unfold calculate_downward_revision_value.
  apply Rmult_le_pos; [apply Rmax_0_nonneg|].
  cbn [downward_revision_base_prob SHENGTANG_CONFIG].
  destruct (Rle_b years_to_put 0), (Rle_b years_to_put 1),
    (Rle_b years_to_put 2), (Rlt_b 100 (S / K * 100)),
    (Rlt_b 90 (S / K * 100)); lra.
Qed.

(** The redemption loss is a share, at most the whole, of the conversion
    option it is taken from. *)
Lemma calculate_forced_redemption_loss_bounds S K T sigma r trigger :
  0 < K ->
  0 <= calculate_forced_redemption_loss S K T sigma r trigger
    <= calculate_call_option_value S K T sigma r.
Proof.
  intros HK.
  pose proof (calculate_call_option_value_nonneg S K T sigma r HK) as Hfull.
  pose proof (calculate_call_option_value_nonneg S K 1 sigma r HK) as Hearly.
  unfold calculate_forced_redemption_loss.
  destruct (Rle_b T 0.5); [lra|].
  destruct (Rlt_b 0 (Rmax 0 (T - 1))); [|lra].
  set (full := calculate_call_option_value S K T sigma r) in *.
  set (early := calculate_call_option_value S K 1 sigma r) in *.
  set (d2 := (ln (S / (K * trigger)) + (r - 0.5 * sigma ^ 2) * T)
             / (sigma * sqrt T)).
  pose proof (norm_cdf_range d2) as Hphi.
  set (prob := if Rlt_b 125 (S / K * 100)
               then Rmin 0.95 (norm_cdf d2 * 1.5) else norm_cdf d2).
  assert (Hprob : 0 <= prob <= 1).
  { subst prob. destruct (Rlt_b 125 (S / K * 100)); [|assumption].
    unfold Rmin. destruct (Rle_dec 0.95 (norm_cdf d2 * 1.5)); lra. }
  assert (Hm : 0 <= Rmax 0 (full - early) <= full).
  { split; [apply Rmax_0_nonneg|]. apply Rmax_lub; lra. }
  split.
  - apply Rmult_le_pos; lra.
  - rewrite <- (Rmult_1_r full) at 2.
    apply Rmult_le_compat; lra.
Qed.

(** ** Valuation of one row *)

Lemma stock_price_validated sp cp K :
  cp = Fin K -> 0 < K ->
  0 < number (if isna sp || fle sp 0
              then if fgt cp 0 then fmap2 Rmult cp (Fin 0.8) else Fin 10
              else sp).
Proof.
  intros -> HK. destruct sp as [|s]; cbn.
  - case_cmp 0 K; cbn; lra.
  - case_cmp s 0; cbn; [|lra].
    case_cmp 0 K; cbn; lra.
Qed.

Lemma years_validated y :
  0 < number (if isna y || fle y 0 then Fin 0.1 else y).
Proof.
  destruct y as [|t]; cbn; [lra|].
  case_cmp t 0; cbn; lra.
Qed.

Lemma py_int_nonneg T : 0 <= T -> (0 <= py_int T)%Z.
Proof.
  intros HT. unfold py_int.
  assert (E : Rle_b 0 T = true) by now apply Rle_b_true.
  rewrite E. now apply Zfloor_lub.
Qed.

Lemma conversion_probs_nonempty (f : nat -> R) T :
  0 <= T -> map f (py_range 1 (py_int T + 2)) <> [].
Proof.
  intros HT. pose proof (py_int_nonneg T HT) as Hn.
  unfold py_range.
  destruct (Z.to_nat (py_int T + 2 - 1)) eqn:E; [lia|]. cbn. discriminate.
Qed.

Lemma conversion_probs_range S K T sigma threshold years :
  Forall (fun q => 0 <= q <= 1)
    (map (fun year =>
            calculate_conversion_probability S K (Rmin (INR year) T) sigma
              threshold) years).
Proof.
  apply Forall_forall. intros q Hq. apply in_map_iff in Hq as (y & <- & _).
  apply calculate_conversion_probability_range.
Qed.

(** A row with a valid conversion price is valued: with the stock price [S]
    and the years [T] left by the validation, the result holds the five
    components, their total and the deviation of the price from it. *)
Lemma calculate_shengtang_value_valid row K :
  row_get (convert_price row) (Fin 0) = Fin K -> 0 < K ->
  exists S T bf,
    0 < S /\ 0 < T
    /\ (forall s, row_get (stock_price row) (Fin 0) = Fin s -> 0 < s -> S = s)
    /\ (forall t, row_get (years_to_maturity row) (Fin 3) = Fin t -> 0 < t ->
          T = t)
    /\ let price := row_get (price row) (Fin 100) in
       let r := risk_free_rate SHENGTANG_CONFIG in
       let d := r + get_credit_spread (row_get (rating row) (RatingStr "AA")) in
       let sigma :=
         default_volatility SHENGTANG_CONFIG
         * volatility_adjustment SHENGTANG_CONFIG in
       let ytp := Rmax 0 (T - 2) in
       let probs :=
         map (fun year =>
                calculate_conversion_probability S K (Rmin (INR year) T) sigma
                  (conversion_threshold SHENGTANG_CONFIG))
             (py_range 1 (py_int T + 2)) in
       let pv := calculate_put_value 100 103 ytp d 0.1 in
       let co := calculate_call_option_value S K T sigma r in
       let rv := calculate_downward_revision_value S K T sigma r ytp in
       let rl := calculate_forced_redemption_loss S K T sigma r 1.30 in
       let total := Rmax bf (bf + pv) + co + rv - rl in
       calculate_bond_floor 100 None T d (Some probs) = Some bf
       /\ calculate_shengtang_value row SHENGTANG_CONFIG
          = Some {|
              bond_floor := bf;
              put_value := pv;
              call_option_value := co;
              revision_value := rv;
              redemption_loss := rl;
              total_value := total;
              current_price := price;
              value_deviation :=
                if Rlt_b 0 total then
                  match price with
                  | Fin p => Fin (((p - total) / total) * 100)
                  | NaN => NaN
                  end
                else Fin 0
            |}.
Proof.
  intros Hcp HK.
  pose proof (stock_price_validated (row_get (stock_price row) (Fin 0))
                _ K Hcp HK) as HS.
  pose proof (years_validated (row_get (years_to_maturity row) (Fin 3))) as HT.
  unfold calculate_shengtang_value. cbv zeta.
  match type of HS with 0 < ?x => set (S := x) in * end.
  match type of HT with 0 < ?x => set (T := x) in * end.
  assert (Hguard : isna (row_get (convert_price row) (Fin 0))
                   || fle (row_get (convert_price row) (Fin 0)) 0 = false).
  { rewrite Hcp. cbn. now apply Rle_b_false. }
  rewrite Hguard.
  replace (number (row_get (convert_price row) (Fin 0))) with K
    by (rewrite Hcp; reflexivity).
  set (probs := map _ (py_range 1 (py_int T + 2))).
  destruct (calculate_bond_floor_default_some 100 T
              (risk_free_rate SHENGTANG_CONFIG
               + get_credit_spread (row_get (rating row) (RatingStr "AA")))
              probs) as [bf Hbf].
  { subst probs. apply conversion_probs_nonempty. lra. }
  exists S, T, bf. split; [exact HS|]. split; [exact HT|].
  split; [|split].
  - intros s Hs Hpos. subst S. rewrite Hs. cbn.
    assert (E : Rle_b s 0 = false) by now apply Rle_b_false.
    now rewrite E.
  - intros t Ht Hpos. subst T. rewrite Ht. cbn.
    assert (E : Rle_b t 0 = false) by now apply Rle_b_false.
    now rewrite E.
  - split; [exact Hbf|].
    rewrite Hbf. reflexivity.
Qed.

(** Read the fields of a result that is given as a record. *)
Ltac result_fields :=
  cbn [bond_floor put_value call_option_value revision_value redemption_loss
       total_value current_price value_deviation].

Lemma valid_input_get cell default :
  valid_input cell -> exists x, row_get cell default = Fin x /\ 0 < x.
Proof. intros (x & -> & Hx). exists x. now split. Qed.

Lemma invalid_convert_price_guard cell :
  invalid_convert_price cell ->
  isna (row_get cell (Fin 0)) || fle (row_get cell (Fin 0)) 0 = true.
Proof.
  destruct cell as [[|x]|]; cbn; intros H.
  - reflexivity.
  - now apply Rle_b_true.
  - apply Rle_b_true. lra.
Qed.

(** A row without a valid conversion price gets the initial result, with the
    price of the row in it. *)
Lemma calculate_shengtang_value_invalid row config :
  invalid_convert_price (convert_price row) ->
  calculate_shengtang_value row config
  = Some (set_current_price (row_get (price row) (Fin 100)) initial_result).
Proof.
  intros H. apply invalid_convert_price_guard in H.
  unfold calculate_shengtang_value. cbv zeta. now rewrite H.
Qed.

(** Every row is valued: no exception escapes [calculate_shengtang_value]. *)
Lemma calculate_shengtang_value_total row :
  exists res, calculate_shengtang_value row SHENGTANG_CONFIG = Some res.
Proof.
  destruct (row_get (convert_price row) (Fin 0)) as [|K] eqn:Hcp.
  - eexists. apply calculate_shengtang_value_invalid.
    destruct (convert_price row) as [[|x]|]; cbn in *; try exact I;
      discriminate.
  - destruct (Rle_dec K 0) as [HK|HK].
    + eexists. apply calculate_shengtang_value_invalid.
      destruct (convert_price row) as [[|x]|]; cbn in *; try exact I.
      injection Hcp as ->. exact HK.
    + destruct (calculate_shengtang_value_valid row K Hcp ltac:(lra))
        as (S & T & bf & _ & _ & _ & _ & _ & Hres).
      eexists. exact Hres.
Qed.

(** C2.  For a row with valid stock and conversion prices the total is
    [bond_floor + put_value + call_option_value + revision_value
     - redemption_loss]: the put value is not negative, so the maximum of
    the bond floor without and with it is the bond floor with it. *)
Theorem total_value_is_sum :
  forall row,
    valid_input (stock_price row) ->
    valid_input (convert_price row) ->
    exists res,
      calculate_shengtang_value row SHENGTANG_CONFIG = Some res
      /\ total_value res
         = bond_floor res + put_value res + call_option_value res
           + revision_value res - redemption_loss res
      /\ 0 <= put_value res
      /\ Rmax (bond_floor res) (bond_floor res + put_value res)
         = bond_floor res + put_value res.
Proof.
  intros row _ Hcp.
  apply valid_input_get with (default := Fin 0) in Hcp as (K & Hcp & HK).
  destruct (calculate_shengtang_value_valid row K Hcp HK)
    as (S & T & bf & HS & HT & _ & _ & Hbf & Hres).
  eexists. split; [exact Hres|]. result_fields.
  assert (Hpv : 0 <= calculate_put_value 100 103 (Rmax 0 (T - 2))
                       (risk_free_rate SHENGTANG_CONFIG
                        + get_credit_spread
                            (row_get (rating row) (RatingStr "AA"))) 0.1)
    by (apply calculate_put_value_nonneg; lra).
  rewrite Rmax_right by lra.
  repeat split; try assumption; lra.
Qed.

(** C5.  For a row with valid stock and conversion prices the five
    components are not negative; the redemption loss is the one that the
    total subtracts. *)
Theorem components_nonneg :
  forall row,
    valid_input (stock_price row) ->
    valid_input (convert_price row) ->
    exists res,
      calculate_shengtang_value row SHENGTANG_CONFIG = Some res
      /\ 0 <= bond_floor res
      /\ 0 <= put_value res
      /\ 0 <= call_option_value res
      /\ 0 <= revision_value res
      /\ 0 <= redemption_loss res
      /\ total_value res
         = Rmax (bond_floor res) (bond_floor res + put_value res)
           + call_option_value res + revision_value res
           - redemption_loss res.
Proof.
  intros row _ Hcp.
  apply valid_input_get with (default := Fin 0) in Hcp as (K & Hcp & HK).
  destruct (calculate_shengtang_value_valid row K Hcp HK)
    as (S & T & bf & HS & HT & _ & _ & Hbf & Hres).
  eexists. split; [exact Hres|]. result_fields.
  pose proof (get_credit_spread_bounds (row_get (rating row) (RatingStr "AA")))
    as Hspread.
  split; [|split; [|split; [|split; [|split]]]].
  - eapply calculate_bond_floor_default_nonneg; [| | | |exact Hbf].
    + lra.
    + cbn. lra.
    + apply conversion_probs_nonempty. lra.
    + apply conversion_probs_range.
  - apply calculate_put_value_nonneg; lra.
  - now apply calculate_call_option_value_nonneg.
  - apply calculate_downward_revision_value_nonneg.
  - now apply calculate_forced_redemption_loss_bounds.
  - reflexivity.
Qed.

(** ** Lists, frames and the head of a frame *)

Lemma mapM_Forall2 {A B : Type} (f : A -> option B) l vs :
  mapM f l = Some vs -> Forall2 (fun a b => f a = Some b) l vs.
Proof.
  revert vs. induction l as [|a l IH]; cbn; intros vs.
  - intros [= <-]. constructor.
  - destruct (f a) as [b|] eqn:Ea; cbn; [|discriminate].
    destruct (mapM f l) as [bs|]; cbn; [|discriminate].
    intros [= <-]. constructor; auto.
Qed.

Lemma mapM_total {A B : Type} (f : A -> option B) l :
  (forall a, exists b, f a = Some b) -> exists vs, mapM f l = Some vs.
Proof.
  intros Hf. induction l as [|a l [bs IH]]; cbn; [eauto|].
  destruct (Hf a) as [b ->]. rewrite IH. cbn. eauto.
Qed.

Lemma enumerate_from_In (P : Cells -> ValuationResult -> Prop) cs vs :
  Forall2 P cs vs ->
  forall start e,
    In e (enumerate_from start cs vs) ->
    (start <= position e)%nat
    /\ nth_error cs (position e - start) = Some (cells e)
    /\ P (cells e) (st e).
Proof.
  induction 1 as [|c v cs vs Hcv _ IH]; intros start e; cbn; [tauto|].
  intros [<-|Hin]; cbn.
  - rewrite Nat.sub_diag. auto.
  - destruct (IH _ _ Hin) as (Hle & Hnth & HP).
    split; [lia|]. split; [|assumption].
    replace (position e - start)%nat
      with (Datatypes.S (position e - Datatypes.S start)) by lia.
    exact Hnth.
Qed.

Lemma firstn_incl {A : Type} (l : list A) n x :
  In x (firstn n l) -> In x l.
Proof.
  intros H. rewrite <- (firstn_skipn n l). apply in_or_app. now left.
Qed.

Lemma head_incl {A : Type} (l : list A) n x : In x (head l n) -> In x l.
Proof. unfold head. destruct (0 <=? n)%Z; apply firstn_incl. Qed.

Lemma head_length {A : Type} (l : list A) n :
  (0 <= n)%Z -> (Z.of_nat (List.length (head l n)) <= n)%Z.
Proof.
  intros Hn. unfold head.
  destruct (Z.leb_spec 0 n); [|lia].
  pose proof (firstn_le_length (Z.to_nat n) l). lia.
Qed.

Lemma Sorted_firstn {A : Type} (R : A -> A -> Prop) l n :
  Sorted R l -> Sorted R (firstn n l).
Proof.
  revert l. induction n as [|n IH]; intros l Hl; cbn; [constructor|].
  destruct l as [|a l]; [constructor|].
  inversion Hl as [|? ? Hs Hh]; subst.
  constructor; [now apply IH|].
  destruct n; cbn; [constructor|].
  destruct l; [constructor|]. inversion Hh; subst. now constructor.
Qed.

Lemma Sorted_head {A : Type} (R : A -> A -> Prop) (l : list A) n :
  Sorted R l -> Sorted R (head l n).
Proof.
  intros H. unfold head. destruct (0 <=? n)%Z; now apply Sorted_firstn.
Qed.

(** ** The batch screen *)

Lemma flt_true c y : flt c y = true <-> exists x, c = Fin x /\ x < y.
Proof.
  destruct c as [|x]; cbn.
  - split; [discriminate|]. intros (x & H & _). discriminate.
  - rewrite Rlt_b_true. split.
    + intros H. eauto.
    + intros (x' & [= ->] & H). exact H.
Qed.

Lemma screen_In cols max l e :
  In e (screen cols max l) <->
  In e l
  /\ 0 < st_total_value e
  /\ (exists x, st_value_deviation e = Fin x /\ x < 0)
  /\ (has_premium_rate cols = true ->
      exists p, cell_premium_rate (cells e) = Fin p /\ p < max).
Proof.
  unfold screen. cbv zeta.
  destruct (has_premium_rate cols).
  - rewrite !filter_In, !flt_true, Rlt_b_true. intuition.
  - rewrite !filter_In, !flt_true, Rlt_b_true. intuition. discriminate.
Qed.

(** What [strategy_shengtang] returns: the head of the sorted screen of the
    valued rows. *)
Lemma strategy_shengtang_inv df top_n max out :
  strategy_shengtang df top_n max = Some out ->
  exists vs,
    Forall2 (fun c v =>
               calculate_shengtang_value (series_of (columns df) c)
                 SHENGTANG_CONFIG = Some v)
            (rows df) vs
    /\ out = head (sort_values st_value_deviation
                     (screen (columns df) max
                        (enumerate_from 0 (rows df) vs)))
                  top_n.
Proof.
  unfold strategy_shengtang.
  destruct (mapM _ (rows df)) as [vs|] eqn:Hm; cbn [bind]; [|discriminate].
  apply mapM_Forall2 in Hm.
  destruct vs as [|v vs]; [discriminate|].
  intros [= <-]. exists (v :: vs). split; [exact Hm|reflexivity].
Qed.

(** A batch with at least one row is ranked: no exception escapes. *)
Lemma strategy_shengtang_total df top_n max :
  rows df <> [] -> exists out, strategy_shengtang df top_n max = Some out.
Proof.
  intros Hrows. unfold strategy_shengtang.
  destruct (mapM_total
              (fun row => calculate_shengtang_value
                            (series_of (columns df) row) SHENGTANG_CONFIG)
              (rows df)) as [vs Hm].
  { intros c. apply calculate_shengtang_value_total. }
  rewrite Hm. cbn [bind].
  destruct vs as [|v vs]; [|eauto].
  apply mapM_Forall2 in Hm. inversion Hm as [Hr|]; subst.
  now rewrite <- Hr in Hrows.
Qed.

(** On a frame without rows no [st_] column is made, and the first filter
    raises KeyError. *)
Lemma strategy_shengtang_empty cols top_n max :
  strategy_shengtang {| columns := cols; rows := [] |} top_n max = None.
Proof. reflexivity. Qed.

(** A returned row comes from the input, was valued by
    [calculate_shengtang_value] and passed the screen. *)
Lemma strategy_shengtang_In df top_n max out e :
  strategy_shengtang df top_n max = Some out ->
  In e out ->
  nth_error (rows df) (position e) = Some (cells e)
  /\ calculate_shengtang_value (series_of (columns df) (cells e))
       SHENGTANG_CONFIG = Some (st e)
  /\ 0 < st_total_value e
  /\ (exists x, st_value_deviation e = Fin x /\ x < 0)
  /\ (has_premium_rate (columns df) = true ->
      exists p, cell_premium_rate (cells e) = Fin p /\ p < max).
Proof.
  intros Hs Hin.
  apply strategy_shengtang_inv in Hs as (vs & Hvs & ->).
  apply head_incl in Hin.
  apply (Permutation_in _ (Permutation_sym (sort_values_permutation _ _)))
    in Hin.
  apply screen_In in Hin as (Hin & Htot & Hdev & Hprem).
  destruct (enumerate_from_In _ _ _ Hvs _ _ Hin) as (_ & Hnth & Hval).
  rewrite Nat.sub_0_r in Hnth. auto.
Qed.

(** ** The ranked output *)

(** C1, as the code has it.  A row whose conversion price is missing or not
    positive gets a result in which every field is 0 except [current_price],
    which echoes the price of the row (100 when the row has no price label);
    and the row is in no ranked output, whatever [top_n] and
    [max_premium_rate] are. *)
Theorem invalid_convert_price_excluded :
  forall df i c,
    nth_error (rows df) i = Some c ->
    invalid_convert_price (convert_price (series_of (columns df) c)) ->
    exists res,
      calculate_shengtang_value (series_of (columns df) c) SHENGTANG_CONFIG
      = Some res
      /\ valuation_fields_zero res
      /\ current_price res
         = row_get (price (series_of (columns df) c)) (Fin 100)
      /\ forall top_n max_premium_rate,
           exists out,
             strategy_shengtang df top_n max_premium_rate = Some out
             /\ forall e, In e out -> position e <> i.
Proof.
  intros df i c Hnth Hinv.
  pose proof (calculate_shengtang_value_invalid _ SHENGTANG_CONFIG Hinv)
    as Hres.
  eexists. split; [exact Hres|].
  split; [repeat split|]. split; [reflexivity|].
  intros top_n max.
  destruct (strategy_shengtang_total df top_n max) as [out Hout].
  { intros Hr. rewrite Hr in Hnth. destruct i; discriminate. }
  exists out. split; [exact Hout|].
  intros e He Hpos.
  destruct (strategy_shengtang_In _ _ _ _ _ Hout He)
    as (Hrow & Hval & Htot & _).
  rewrite Hpos, Hnth in Hrow. injection Hrow as Hc.
  rewrite <- Hc, Hres in Hval. injection Hval as Hst.
  unfold st_total_value in Htot. rewrite <- Hst in Htot. cbn in Htot. lra.
Qed.

(** C4.  For a batch with at least one row, [strategy_shengtang] returns
    rows of the batch with their valuations: at most [top_n] of them for a
    count [top_n >= 0]; each with a positive total value, a negative
    deviation and, when the batch has a premium-rate column, a premium rate
    below [max_premium_rate]; in ascending order of the deviation. *)
Theorem strategy_shengtang_contract :
  forall df top_n max_premium_rate,
    rows df <> [] ->
    exists out,
      strategy_shengtang df top_n max_premium_rate = Some out
      /\ ((0 <= top_n)%Z -> (Z.of_nat (List.length out) <= top_n)%Z)
      /\ (forall e,
            In e out ->
            nth_error (rows df) (position e) = Some (cells e)
            /\ calculate_shengtang_value (series_of (columns df) (cells e))
                 SHENGTANG_CONFIG = Some (st e)
            /\ 0 < total_value (st e)
            /\ (exists x, value_deviation (st e) = Fin x /\ x < 0)
            /\ (forall c,
                  premium_rate (series_of (columns df) (cells e)) = Some c ->
                  exists p, c = Fin p /\ p <= max_premium_rate))
      /\ ascending out.
Proof.
  intros df top_n max Hrows.
  destruct (strategy_shengtang_total df top_n max Hrows) as [out Hout].
  exists out. split; [exact Hout|].
  split; [|split].
  - intros Hn.
    apply strategy_shengtang_inv in Hout as (vs & _ & ->).
    now apply head_length.
  - intros e He.
    destruct (strategy_shengtang_In _ _ _ _ _ Hout He)
      as (Hrow & Hval & Htot & Hdev & Hprem).
    repeat (split; [assumption|]).
    cbn [premium_rate series_of]. unfold label.
    destruct (has_premium_rate (columns df)); [|discriminate].
    intros c [= <-].
    destruct (Hprem eq_refl) as (p & Hp & Hlt).
    exists p. split; [exact Hp|lra].
  - apply strategy_shengtang_inv in Hout as (vs & _ & ->).
    apply Sorted_head, sort_values_sorted.
Qed.

(** ** Rows pass the screen in input order *)

Lemma enumerate_from_position cs vs start e :
  In e (enumerate_from start cs vs) -> (start <= position e)%nat.
Proof.
  revert vs start. induction cs as [|c cs IH]; intros [|v vs] start; cbn;
    try tauto.
  intros [<-|Hin]; cbn; [lia|].
  apply IH in Hin. lia.
Qed.

Lemma enumerate_from_increasing cs vs start :
  increasing (enumerate_from start cs vs).
Proof.
  revert vs start. induction cs as [|c cs IH]; intros [|v vs] start; cbn;
    try constructor.
  - apply IH.
  - apply Forall_forall. intros e He.
    apply enumerate_from_position in He. cbn. lia.
Qed.

Lemma increasing_filter f l : increasing l -> increasing (filter f l).
Proof.
  induction 1 as [|a l Hl IH Ha]; cbn; [constructor|].
  destruct (f a); [|assumption].
  constructor; [assumption|].
  rewrite Forall_forall in *. intros x Hx.
  apply filter_In in Hx as [Hx _]. now apply Ha.
Qed.

Lemma increasing_screen cols max l :
  increasing l -> increasing (screen cols max l).
Proof.
  intros H. unfold screen. cbv zeta.
  destruct (has_premium_rate cols); repeat apply increasing_filter; exact H.
Qed.

(** ** A bond close to maturity *)

Lemma calculate_bond_floor_short face T d probs :
  0 < T -> T < 1 ->
  calculate_bond_floor face None T d (Some probs)
  = Some (0 + face * 1.0 / py_pow (1 + d) T).
Proof.
  intros H0 H1. unfold calculate_bond_floor.
  assert (E : Rle_b T 0 = false) by now apply Rle_b_false.
  rewrite E.
  assert (Hc : Zceil T = 1%Z) by (apply Zceil_eq; lra).
  rewrite Hc. change (py_range 1 (1 + 1)) with [1%nat].
  cbn [bond_floor_loop].
  assert (E1 : Rlt_b T (INR 1) = true) by (apply Rlt_b_true; cbn; lra).
  rewrite E1. reflexivity.
Qed.

(** With at most half a year to run and a price of at most 100, a row with a
    valid conversion price is valued above its price. *)
Lemma short_dated_undervalued row K T p :
  row_get (convert_price row) (Fin 0) = Fin K -> 0 < K ->
  row_get (years_to_maturity row) (Fin 3) = Fin T -> 0 < T -> T <= 0.5 ->
  row_get (price row) (Fin 100) = Fin p -> p <= 100 ->
  exists res,
    calculate_shengtang_value row SHENGTANG_CONFIG = Some res
    /\ 0 < total_value res
    /\ exists x, value_deviation res = Fin x /\ x < 0.
Proof.
  intros Hcp HK Hy HT0 HT Hp Hp100.
  destruct (calculate_shengtang_value_valid row K Hcp HK)
    as (S & T' & bf & HS & _ & _ & HT' & Hbf & Hres).
  rewrite (HT' T Hy HT0) in *. clear HT' T'.
  rewrite Hp in Hres.
  eexists. split; [exact Hres|]. result_fields.
  pose proof (get_credit_spread_bounds (row_get (rating row) (RatingStr "AA")))
    as Hspread.
  set (d := risk_free_rate SHENGTANG_CONFIG
            + get_credit_spread (row_get (rating row) (RatingStr "AA"))) in *.
  assert (Hd : 0 < d <= 0.095) by (subst d; cbn; lra).
  rewrite calculate_bond_floor_short in Hbf by lra.
  injection Hbf as Hbf.
  assert (Hpow : 0 < py_pow (1 + d) T <= 1 + d).
  { unfold py_pow. split; [apply Rpower_pos|].
    rewrite <- (Rpower_1 (1 + d)) at 2 by lra.
    apply Rle_Rpower; lra. }
  assert (Hbf91 : 91 < bf).
  { rewrite <- Hbf.
    assert (Hi : / (1 + d) <= / py_pow (1 + d) T)
      by (apply Rinv_le_contravar; lra).
    assert (Hi2 : / 1.095 <= / (1 + d))
      by (apply Rinv_le_contravar; lra).
    assert (Hnum : 0.913 < / 1.095).
    { apply Rmult_lt_reg_r with 1.095; [lra|].
      rewrite Rinv_l by lra. lra. }
    unfold Rdiv. nra. }
  assert (Hpv : calculate_put_value 100 103 (Rmax 0 (T - 2)) d 0.1 = 10.3).
  { rewrite Rmax_left by lra. unfold calculate_put_value.
    assert (E : Rle_b 0 0 = true) by (apply Rle_b_true; lra).
    rewrite E. lra. }
  assert (Hrl : calculate_forced_redemption_loss S K T
                  (default_volatility SHENGTANG_CONFIG
                   * volatility_adjustment SHENGTANG_CONFIG)
                  (risk_free_rate SHENGTANG_CONFIG) 1.30 = 0).
  { unfold calculate_forced_redemption_loss.
    assert (E : Rle_b T 0.5 = true) by now apply Rle_b_true.
    now rewrite E. }
  rewrite Hpv, Hrl.
  pose proof (calculate_call_option_value_nonneg S K T
                (default_volatility SHENGTANG_CONFIG
                 * volatility_adjustment SHENGTANG_CONFIG)
                (risk_free_rate SHENGTANG_CONFIG) HK) as Hco.
  pose proof (calculate_downward_revision_value_nonneg S K T
                (default_volatility SHENGTANG_CONFIG
                 * volatility_adjustment SHENGTANG_CONFIG)
                (risk_free_rate SHENGTANG_CONFIG) (Rmax 0 (T - 2))) as Hrv.
  set (co := calculate_call_option_value _ _ _ _ _) in *.
  set (rv := calculate_downward_revision_value _ _ _ _ _ _) in *.
  rewrite Rmax_right by lra.
  set (total := bf + 10.3 + co + rv - 0).
  assert (Htot : 101 < total) by (subst total; lra).
  split; [lra|].
  assert (E : Rlt_b 0 total = true) by (apply Rlt_b_true; lra).
  rewrite E. eexists. split; [reflexivity|].
  assert (Hq : (p - total) / total < 0).
  { apply Rmult_lt_reg_r with total; [lra|].
    unfold Rdiv. rewrite Rmult_assoc, Rinv_l by lra. lra. }
  lra.
Qed.

(** * Further properties of the code *)

(** ** Prices of the two options *)

Lemma call_price_le_S S K T r sigma :
  0 < S -> 0 < K ->
  S * norm_cdf (bs_d1 S K T r sigma)
  - K * exp (- r * T) * norm_cdf (bs_d2 S K T r sigma) <= S.
Proof.
  intros HS HK.
  pose proof (norm_cdf_range (bs_d1 S K T r sigma)) as H1.
  pose proof (norm_cdf_range (bs_d2 S K T r sigma)) as H2.
  pose proof (exp_pos (- r * T)) as He.
  assert (0 <= K * exp (- r * T) * norm_cdf (bs_d2 S K T r sigma))
    by (repeat apply Rmult_le_pos; lra).
  assert (S * norm_cdf (bs_d1 S K T r sigma) <= S * 1)
    by (apply Rmult_le_compat_l; lra).
  lra.
Qed.

Lemma black_scholes_call_le_S S K T r sigma :
  0 < S -> 0 < K -> 0 < T -> 0 < sigma ->
  black_scholes_call S K T r sigma <= S.
Proof.
  intros HS HK HT Hsig.
  rewrite black_scholes_call_eq by assumption.
  apply Rmax_lub; [lra|]. now apply call_price_le_S.
Qed.

(** X1.  No-arbitrage bounds: for positive [S], [K], [T] and [sigma] the
    call is worth at least [max(0, S - K * exp(-r*T))] and at most [S], the
    put at least [max(0, K * exp(-r*T) - S)] and at most
    [K * exp(-r*T)]. *)
Theorem black_scholes_bounds :
  forall S K T r sigma,
    0 < S -> 0 < K -> 0 < T -> 0 < sigma ->
    Rmax 0 (S - K * exp (- r * T)) <= black_scholes_call S K T r sigma <= S
    /\ Rmax 0 (K * exp (- r * T) - S)
       <= black_scholes_put S K T r sigma <= K * exp (- r * T).
Proof.
  intros S K T r sigma HS HK HT Hsig.
  rewrite black_scholes_call_eq, black_scholes_put_eq by assumption.
  pose proof (call_price_nonneg S K T r sigma HT Hsig HS HK) as Hc.
  pose proof (put_price_nonneg S K T r sigma HT Hsig HS HK) as Hp.
  pose proof (call_price_le_S S K T r sigma HS HK) as Hcs.
  rewrite !norm_cdf_symmetric in Hp |- *.
  rewrite (Rmax_right 0 (S * _ - _)) by exact Hc.
  rewrite (Rmax_right 0 (K * exp (- r * T) * _ - _)) by exact Hp.
  pose proof (norm_cdf_range (bs_d1 S K T r sigma)) as H1.
  pose proof (norm_cdf_range (bs_d2 S K T r sigma)) as H2.
  pose proof (exp_pos (- r * T)) as He.
  set (c1 := norm_cdf (bs_d1 S K T r sigma)) in *.
  set (c2 := norm_cdf (bs_d2 S K T r sigma)) in *.
  set (E := exp (- r * T)) in *.
  assert (HKE : 0 < K * E) by now apply Rmult_lt_0_compat.
  split; split.
  - apply Rmax_lub; [lra|]. nra.
  - lra.
  - apply Rmax_lub; [lra|]. nra.
  - nra.
Qed.

(** X2.  When an argument is not positive the two prices are the payoffs
    [max(0, S - K)] and [max(0, K - S)], and their difference is [S - K]:
    parity without discounting. *)
Theorem black_scholes_degenerate :
  forall S K T r sigma,
    T <= 0 \/ sigma <= 0 \/ S <= 0 \/ K <= 0 ->
    black_scholes_call S K T r sigma = Rmax 0 (S - K)
    /\ black_scholes_put S K T r sigma = Rmax 0 (K - S)
    /\ black_scholes_call S K T r sigma - black_scholes_put S K T r sigma
       = S - K.
Proof.
  intros S K T r sigma H.
  assert (G : Rle_b T 0 || Rle_b sigma 0 || Rle_b S 0 || Rle_b K 0 = true).
  { rewrite !orb_true_iff, !Rle_b_true. tauto. }
  unfold black_scholes_call, black_scholes_put. rewrite G.
  split; [reflexivity|]. split; [reflexivity|].
  unfold Rmax.
  destruct (Rle_dec 0 (S - K)), (Rle_dec 0 (K - S)); lra.
Qed.

(** X3.  The conversion option of one bond is worth at most the bond's
    conversion value [(S / K) * 100], and is not negative. *)
Theorem calculate_call_option_value_bounds :
  forall S K T sigma r,
    0 < S -> 0 < K -> 0 < T -> 0 < sigma ->
    0 <= calculate_call_option_value S K T sigma r <= (S / K) * 100.
Proof.
  intros S K T sigma r HS HK HT Hsig.
  split; [now apply calculate_call_option_value_nonneg|].
  unfold calculate_call_option_value.
  pose proof (black_scholes_call_le_S S K T r sigma HS HK HT Hsig) as Hle.
  assert (Hi : 0 < / K) by now apply Rinv_0_lt_compat.
  unfold Rdiv.
  replace (S * / K * 100) with (S * (100 * / K)) by ring.
  apply Rmult_le_compat_r; [nra|exact Hle].
Qed.

(** ** Put value, revision value and redemption loss *)

Lemma Rpower_ge_1 x y : 1 <= x -> 0 <= y -> 1 <= Rpower x y.
Proof.
  intros Hx Hy. rewrite <- (Rpower_O x) by lra. apply Rle_Rpower; lra.
Qed.

(** X4.  With a discount rate that is not negative, the put value is at most
    [put_price * put_probability], and it does not grow with the years to
    the put. *)
Theorem calculate_put_value_discounted :
  forall face put_price d prob y1 y2,
    0 <= put_price -> 0 <= prob -> 0 <= d -> y1 <= y2 ->
    calculate_put_value face put_price y2 d prob
    <= calculate_put_value face put_price y1 d prob
    /\ calculate_put_value face put_price y1 d prob <= put_price * prob.
Proof.
  intros face P d q y1 y2 HP Hq Hd Hy.
  assert (Hinv : forall y, 0 < y -> 0 < / Rpower (1 + d) y <= 1).
  { intros y Hy0. pose proof (Rpower_ge_1 (1 + d) y ltac:(lra) ltac:(lra)).
    split; [apply Rinv_0_lt_compat; lra|].
    assert (Hi : / Rpower (1 + d) y <= / 1)
      by (apply Rinv_le_contravar; lra).
    rewrite Rinv_1 in Hi. exact Hi. }
  assert (Hle : forall y, 0 < y -> P / Rpower (1 + d) y * q <= P * q).
  { intros y Hy0. destruct (Hinv y Hy0) as [Hi0 Hi1].
    unfold Rdiv. apply Rmult_le_compat_r; [assumption|].
    rewrite <- (Rmult_1_r P) at 2. apply Rmult_le_compat_l; assumption. }
  unfold calculate_put_value, py_pow.
  case_cmp y2 0; case_cmp y1 0; try lra.
  - split; [|lra]. now apply Hle.
  - split; [|now apply Hle].
    unfold Rdiv. apply Rmult_le_compat_r; [assumption|].
    apply Rmult_le_compat_l; [assumption|].
    apply Rinv_le_contravar; [apply Rpower_pos|].
    apply Rle_Rpower; lra.
Qed.

(** The probability tier of the revision, by the years to the put. *)
Lemma revision_tier_monotone y1 y2 :
  y1 <= y2 ->
  let tier y :=
    if Rle_b y 0 then 0.80
    else if Rle_b y 1 then 0.80 * 0.9
    else if Rle_b y 2 then 0.80 * 0.5
    else 0.80 * 0.2 in
  0 < tier y2 <= tier y1 /\ tier y1 <= 0.80.
Proof.
  intros Hy. cbv beta zeta.
  repeat match goal with
         | |- context [Rle_b ?a ?b] => case_cmp a b
         end; lra.
Qed.

(** X5.  For a stock price and a conversion price other than 0, the value
    of a downward revision is not negative, is at most 0.8 times the gain of
    the conversion option from the revised strike [0.9 * S], and does not
    grow with the years to the put. *)
Theorem calculate_downward_revision_value_tiers :
  forall S K T sigma r y1 y2,
    S <> 0 -> K <> 0 ->
    y1 <= y2 ->
    calculate_downward_revision_value S K T sigma r y2
    <= calculate_downward_revision_value S K T sigma r y1
    /\ 0 <= calculate_downward_revision_value S K T sigma r y1
       <= Rmax 0 (calculate_call_option_value S (S * 0.9) T sigma r
                  - calculate_call_option_value S K T sigma r) * 0.8.
Proof.
  intros S K T sigma r y1 y2 _ _ Hy.
  destruct (revision_tier_monotone y1 y2 Hy) as [[H2pos H21] H1].
  cbv beta zeta in H2pos, H21, H1.
  unfold calculate_downward_revision_value.
  cbn [downward_revision_base_prob SHENGTANG_CONFIG].
  set (gain := Rmax 0 (calculate_call_option_value S (S * 0.9) T sigma r
                       - calculate_call_option_value S K T sigma r)).
  assert (Hg : 0 <= gain) by apply Rmax_0_nonneg.
  set (t1 := if Rle_b y1 0 then 0.80 else _) in *.
  set (t2 := if Rle_b y2 0 then 0.80 else _) in *.
  destruct (Rlt_b 100 (S / K * 100)); [|destruct (Rlt_b 90 (S / K * 100))];
    repeat split; nra.
Qed.

(** X6.  For positive [S], [K], [sigma] and trigger ratio, a forced
    redemption costs nothing when at most one year is left; otherwise the
    loss lies between 0 and the value of the conversion option, and under
    0.95 times that value once the conversion value is above 125. *)
Theorem calculate_forced_redemption_loss_cases :
  forall S K T sigma r trigger,
    0 < S -> 0 < K -> 0 < sigma -> 0 < trigger ->
    (T <= 1 -> calculate_forced_redemption_loss S K T sigma r trigger = 0)
    /\ 0 <= calculate_forced_redemption_loss S K T sigma r trigger
         <= calculate_call_option_value S K T sigma r
    /\ (125 < (S / K) * 100 ->
        calculate_forced_redemption_loss S K T sigma r trigger
        <= 0.95 * calculate_call_option_value S K T sigma r).
Proof.
  intros S K T sigma r trigger _ HK _ _.
  split; [|split].
  - intros HT. unfold calculate_forced_redemption_loss.
    destruct (Rle_b T 0.5); [reflexivity|].
    rewrite Rmax_left by lra.
    assert (E : Rlt_b 0 0 = false) by (apply Rlt_b_false; lra).
    now rewrite E.
  - now apply calculate_forced_redemption_loss_bounds.
  - intros Hcv.
    pose proof (calculate_call_option_value_nonneg S K T sigma r HK) as Hfull.
    pose proof (calculate_call_option_value_nonneg S K 1 sigma r HK) as Hearly.
    unfold calculate_forced_redemption_loss.
    destruct (Rle_b T 0.5); [lra|].
    assert (E : Rlt_b 125 (S / K * 100) = true) by now apply Rlt_b_true.
    rewrite E.
    destruct (Rlt_b 0 (Rmax 0 (T - 1))); [|lra].
    set (full := calculate_call_option_value S K T sigma r) in *.
    set (early := calculate_call_option_value S K 1 sigma r) in *.
    set (d2 := (ln (S / (K * trigger)) + (r - 0.5 * sigma ^ 2) * T)
               / (sigma * sqrt T)).
    pose proof (norm_cdf_range d2) as Hphi.
    assert (Hprob : 0 <= Rmin 0.95 (norm_cdf d2 * 1.5) <= 0.95).
    { split; [|apply Rmin_l].
      unfold Rmin. destruct (Rle_dec 0.95 (norm_cdf d2 * 1.5)); lra. }
    assert (Hm : 0 <= Rmax 0 (full - early) <= full).
    { split; [apply Rmax_0_nonneg|]. apply Rmax_lub; lra. }
    rewrite (Rmult_comm 0.95 full).
    apply Rmult_le_compat; lra.
Qed.

(** ** Edges of the bond floor *)

Lemma effective_coupons_eq coupon_rates :
  match coupon_rates with
  | Some l =>
      if (Z.of_nat (List.length l) =? 0)%Z then default_coupon_rates else l
  | None => default_coupon_rates
  end = coupon_schedule coupon_rates.
Proof. destruct coupon_rates as [[|x l]|]; reflexivity. Qed.

(** X7.  With less than a year to run and a discount rate above -1 no
    coupon is paid and no probability is read: the bond floor is the face
    value discounted over [T], whatever the two lists are.  From one year
    on, an empty list of conversion probabilities raises IndexError. *)
Theorem calculate_bond_floor_edges :
  forall face coupon_rates T d,
    (0 < T -> T < 1 -> -1 < d ->
     forall conversion_probs,
       calculate_bond_floor face coupon_rates T d conversion_probs
       = Some (face / Rpower (1 + d) T))
    /\ (1 <= T ->
        calculate_bond_floor face coupon_rates T d (Some []) = None).
Proof.
  intros face coupon_rates T d. split.
  - intros H0 H1 _ probs. unfold calculate_bond_floor.
    assert (E : Rle_b T 0 = false) by now apply Rle_b_false.
    rewrite E.
    assert (Hc : Zceil T = 1%Z) by (apply Zceil_eq; lra).
    rewrite Hc. change (py_range 1 (1 + 1)) with [1%nat].
    cbn [bond_floor_loop].
    assert (E1 : Rlt_b T (INR 1) = true) by (apply Rlt_b_true; cbn; lra).
    rewrite E1. cbn [bind]. f_equal. unfold py_pow, Rdiv. lra.
  - intros H1. unfold calculate_bond_floor.
    assert (E : Rle_b T 0 = false) by (apply Rle_b_false; lra).
    rewrite E, py_range_from_1, effective_coupons_eq.
    pose proof (Zceil_pos T ltac:(lra)) as Hn.
    destruct (Z.to_nat (Zceil T)) as [|n] eqn:En; [lia|].
    cbn [seq bond_floor_loop].
    assert (E1 : Rlt_b T (INR 1) = false) by (apply Rlt_b_false; cbn; lra).
    rewrite E1.
    rewrite (py_index_clamped (coupon_schedule coupon_rates) 1 0
               ltac:(lia) (coupon_schedule_nonempty _)).
    reflexivity.
Qed.

Lemma coupon_term_nonneg face coupons d y :
  0 <= face -> Forall (fun c => 0 <= c) coupons -> 0 < 1 + d ->
  0 <= coupon_term face coupons d y.
Proof.
  intros Hf Hc Hd. unfold coupon_term.
  apply Rmult_le_pos.
  - apply Rmult_le_pos; [assumption|].
    destruct (nth_in_or_default
                (Nat.min (y - 1) (List.length coupons - 1)) coupons 0)
      as [Hin| ->]; [|lra].
    rewrite Forall_forall in Hc. now apply Hc.
  - left. apply Rinv_0_lt_compat, pow_lt, Hd.
Qed.

Lemma coupon_terms_nonneg face coupons d years :
  0 <= face -> Forall (fun c => 0 <= c) coupons -> 0 < 1 + d ->
  0 <= fold_right Rplus 0 (map (coupon_term face coupons d) years).
Proof.
  intros Hf Hc Hd. induction years as [|y years IH]; cbn; [lra|].
  pose proof (coupon_term_nonneg face coupons d y Hf Hc Hd). lra.
Qed.

(** The loop with conversion stays below the loop without. *)
Lemma bond_floor_loop_le face coupons probs T d :
  0 <= face ->
  coupons <> [] -> Forall (fun c => 0 <= c) coupons ->
  probs <> [] -> Forall (fun q => 0 <= q <= 1) probs ->
  0 < 1 + d ->
  forall n a pv rp pv' rp',
    (1 <= a)%nat -> 0 <= rp ->
    bond_floor_loop face coupons probs T d (seq a n) pv rp = Some (pv', rp') ->
    pv' <= pv + rp * fold_right Rplus 0
                 (map (coupon_term face coupons d)
                    (filter (fun y => Rle_b (INR y) T) (seq a n)))
    /\ 0 <= rp' <= rp.
Proof.
  intros Hf Hc Hcn Hp Hpr Hd.
  induction n as [|n IH]; intros a pv rp pv' rp' Ha Hrp.
  - cbn. intros [= <- <-]. lra.
  - cbn [seq bond_floor_loop].
    case_cmp T (INR a).
    + change (a :: seq (Datatypes.S a) n) with (seq a (Datatypes.S n)).
      rewrite (filter_beyond T a (Datatypes.S n) Hcmp). cbn.
      intros [= <- <-]. lra.
    + rewrite (py_index_clamped coupons a 0 Ha Hc).
      rewrite (py_index_clamped probs a 0 Ha Hp).
      cbn [bind filter].
      assert (Hle : Rle_b (INR a) T = true) by now apply Rle_b_true.
      rewrite Hle. cbn [map fold_right].
      set (q := nth (Nat.min (a - 1) (List.length probs - 1)) probs 0).
      assert (Hq : 0 <= q <= 1).
      { rewrite Forall_forall in Hpr. apply Hpr. apply nth_In.
        destruct probs; [contradiction|cbn; lia]. }
      pose proof (coupon_term_nonneg face coupons d a Hf Hcn Hd) as Hterm.
      pose proof (coupon_terms_nonneg face coupons d
                    (filter (fun y => Rle_b (INR y) T) (seq (Datatypes.S a) n))
                    Hf Hcn Hd) as Hrest.
      unfold coupon_term in Hterm |- * at 1.
      set (c := nth (Nat.min (a - 1) (List.length coupons - 1)) coupons 0)
        in *.
      set (rest := fold_right Rplus 0 _) in *.
      intros Hloop.
      apply IH in Hloop; [|lia|nra].
      destruct Hloop as [Hpv Hrp']. fold rest in Hpv.
      set (term := face * c / (1 + d) ^ a) in *.
      replace (face * c * rp * (1 - q) / (1 + d) ^ a)
        with (rp * (1 - q) * term) in Hpv
        by (subst term; unfold Rdiv; ring).
      split; [|nra].
      assert (Ht : 0 <= rp * term) by now apply Rmult_le_pos.
      assert (Hr : 0 <= rp * rest) by now apply Rmult_le_pos.
      assert (0 <= q * (rp * term)) by (apply Rmult_le_pos; lra).
      assert (0 <= q * (rp * rest)) by (apply Rmult_le_pos; lra).
      replace (rp * (1 - q) * term) with (rp * term - q * (rp * term))
        in Hpv by ring.
      replace (rp * (1 - q) * rest) with (rp * rest - q * (rp * rest))
        in Hpv by ring.
      lra.
Qed.

(** X8.  Conversion only lowers the bond floor: with a face value and
    coupon rates that are not negative, probabilities in [[0, 1]] for at
    least one year, a discount rate above -1 and [T > 0], the bond floor is
    computed and lies between 0 and the plain present value. *)
Theorem conversion_lowers_bond_floor :
  forall face coupon_rates T d probs,
    0 <= face ->
    Forall (fun c => 0 <= c) (coupon_schedule coupon_rates) ->
    probs <> [] -> Forall (fun q => 0 <= q <= 1) probs ->
    -1 < d -> 0 < T ->
    exists bf,
      calculate_bond_floor face coupon_rates T d (Some probs) = Some bf
      /\ 0 <= bf
         <= plain_present_value face (coupon_schedule coupon_rates) d T.
Proof.
  intros face coupon_rates T d probs Hf Hcn Hp Hpr Hd HT.
  unfold calculate_bond_floor.
  assert (E : Rle_b T 0 = false) by now apply Rle_b_false.
  rewrite E, py_range_from_1, effective_coupons_eq.
  pose proof (coupon_schedule_nonempty coupon_rates) as Hc.
  destruct (bond_floor_loop_some face (coupon_schedule coupon_rates) probs
              T d Hc Hp (seq 1 (Z.to_nat (Zceil T))) 0 1.0)
    as [[pv rp] Hloop].
  { apply Forall_forall. intros y Hy. apply in_seq in Hy. lia. }
  rewrite Hloop. cbn [bind]. eexists. split; [reflexivity|].
  destruct (bond_floor_loop_le face _ probs T d Hf Hc Hcn Hp Hpr
              ltac:(lra) (Z.to_nat (Zceil T)) 1%nat 0 1.0 pv rp
              ltac:(lia) ltac:(lra) Hloop)
    as [Hpv Hrp].
  destruct (bond_floor_loop_nonneg face _ probs T d Hf Hc Hcn Hp Hpr
              ltac:(lra) (seq 1 (Z.to_nat (Zceil T))) 0 1.0 pv rp)
    as [Hpv0 _]; [|lra|lra|exact Hloop|].
  { apply Forall_forall. intros y Hy. apply in_seq in Hy. lia. }
  assert (Hpow : 0 < / py_pow (1 + d) T)
    by (apply Rinv_0_lt_compat, Rpower_pos).
  unfold plain_present_value. fold (coupon_term face (coupon_schedule coupon_rates) d).
  unfold py_pow in *. unfold Rdiv.
  set (X := / Rpower (1 + d) T) in *.
  assert (HfX : 0 <= face * X) by (apply Rmult_le_pos; lra).
  assert (H0 : 0 <= rp * (face * X)) by (apply Rmult_le_pos; lra).
  assert (H1 : 0 <= (1 - rp) * (face * X)) by (apply Rmult_le_pos; lra).
  replace (face * rp * X) with (rp * (face * X)) by ring.
  split; lra.
Qed.

(** X9.  A higher threshold is reached with a lower probability:
    [calculate_conversion_probability] does not grow with a positive
    threshold, for positive [S] and [K]. *)
Theorem calculate_conversion_probability_threshold :
  forall S K T sigma t1 t2,
    0 < S -> 0 < K -> 0 < t1 -> t1 <= t2 ->
    calculate_conversion_probability S K T sigma t2
    <= calculate_conversion_probability S K T sigma t1.
Proof.
  intros S K T sigma t1 t2 HS HK Ht1 Ht.
  unfold calculate_conversion_probability.
  destruct (Rle_b T 0 || Rle_b sigma 0) eqn:Hdeg.
  - case_cmp t2 (S / K * 100); case_cmp t1 (S / K * 100); lra.
  - apply orb_false_iff in Hdeg as [HT Hsig].
    apply Rle_b_false in HT, Hsig.
    assert (Hq : 0 < sqrt T) by now apply sqrt_lt_R0.
    assert (Hs : 0 < sigma * sqrt T) by now apply Rmult_lt_0_compat.
    apply norm_cdf_monotone.
    unfold Rdiv at 1 3. apply Rmult_le_compat_r.
    + left. now apply Rinv_0_lt_compat.
    + apply Rplus_le_compat_r.
      assert (H1 : 0 < K * t1 / 100) by nra.
      assert (H2 : 0 < K * t2 / 100) by nra.
      apply ln_le_compat; [now apply Rdiv_lt_0_compat|].
      unfold Rdiv at 1 3. apply Rmult_le_compat_l; [lra|].
      apply Rinv_le_contravar; [assumption|nra].
Qed.

(** ** Normalisation of rating tokens *)

Lemma isspace_upper_ascii c : isspace (upper_ascii c) = isspace c.
Proof.
  destruct c as [[] [] [] [] [] [] [] []]; reflexivity.
Qed.

Lemma upper_ascii_idempotent c : upper_ascii (upper_ascii c) = upper_ascii c.
Proof.
  destruct c as [[] [] [] [] [] [] [] []]; reflexivity.
Qed.

Lemma upper_idempotent s : upper (upper s) = upper s.
Proof.
  induction s as [|c s IH]; cbn; [reflexivity|].
  now rewrite upper_ascii_idempotent, IH.
Qed.

Lemma lstrip_upper s : lstrip (upper s) = upper (lstrip s).
Proof.
  induction s as [|c s IH]; cbn; [reflexivity|].
  rewrite isspace_upper_ascii. destruct (isspace c); [exact IH|reflexivity].
Qed.

Lemma rstrip_upper s : rstrip (upper s) = upper (rstrip s).
Proof.
  induction s as [|c s IH]; cbn; [reflexivity|].
  rewrite IH, isspace_upper_ascii.
  destruct (rstrip s); cbn; [|reflexivity].
  destruct (isspace c); reflexivity.
Qed.

Lemma strip_upper s : strip (upper s) = upper (strip s).
Proof. unfold strip. now rewrite lstrip_upper, rstrip_upper. Qed.

Lemma lstrip_no_leading_space s : no_leading_space (lstrip s).
Proof.
  induction s as [|c s IH]; cbn; [exact I|].
  destruct (isspace c) eqn:E; [exact IH|exact E].
Qed.

Lemma lstrip_fixed s : no_leading_space s -> lstrip s = s.
Proof. destruct s as [|c s]; cbn; [reflexivity|]. now intros ->. Qed.

Lemma rstrip_no_leading_space s :
  no_leading_space s -> no_leading_space (rstrip s).
Proof.
  destruct s as [|c s]; cbn; [intros H; exact H|]. intros Hc.
  destruct (rstrip s); cbn; [|exact Hc]. now rewrite Hc.
Qed.

Lemma rstrip_idempotent s : rstrip (rstrip s) = rstrip s.
Proof.
  induction s as [|c s IH]; cbn; [reflexivity|].
  destruct (rstrip s) as [|c' r] eqn:E.
  - destruct (isspace c) eqn:Ec; cbn; [reflexivity|]. now rewrite Ec.
  - cbn [rstrip]. fold rstrip. cbn [rstrip] in IH. rewrite IH. reflexivity.
Qed.

Lemma strip_idempotent s : strip (strip s) = strip s.
Proof.
  unfold strip.
  rewrite (lstrip_fixed (rstrip (lstrip s))).
  - apply rstrip_idempotent.
  - apply rstrip_no_leading_space, lstrip_no_leading_space.
Qed.

(** X10.  The spread depends on the token up to case and surrounding white
    space: upper-casing or stripping the token beforehand changes nothing. *)
Theorem get_credit_spread_normalised :
  forall s,
    get_credit_spread (RatingStr (upper s)) = get_credit_spread (RatingStr s)
    /\ get_credit_spread (RatingStr (strip s))
       = get_credit_spread (RatingStr s).
Proof.
  intros s. cbn [get_credit_spread]. split.
  - now rewrite strip_upper, upper_idempotent.
  - now rewrite strip_idempotent.
Qed.

(** ** The valuation of one row, continued *)

Lemma calculate_put_value_pos face put_price years_to_put d prob :
  0 < put_price -> 0 < prob ->
  0 < calculate_put_value face put_price years_to_put d prob.
Proof.
  intros Hp Hq. unfold calculate_put_value, py_pow.
  destruct (Rle_b years_to_put 0).
  - now apply Rmult_lt_0_compat.
  - apply Rmult_lt_0_compat; [|assumption].
    apply Rmult_lt_0_compat; [assumption|].
    apply Rinv_0_lt_compat, Rpower_pos.
Qed.

(** What the result of a row with a valid conversion price looks like. *)
Lemma valuation_summary row :
  valid_input (convert_price row) ->
  exists res,
    calculate_shengtang_value row SHENGTANG_CONFIG = Some res
    /\ 0 < put_value res
    /\ bond_floor res + put_value res + revision_value res <= total_value res
    /\ 0 <= bond_floor res /\ 0 <= revision_value res
    /\ current_price res = row_get (price row) (Fin 100)
    /\ value_deviation res
       = match row_get (price row) (Fin 100) with
         | Fin p => Fin (((p - total_value res) / total_value res) * 100)
         | NaN => NaN
         end.
Proof.
  intros Hcp.
  apply valid_input_get with (default := Fin 0) in Hcp as (K & Hcp & HK).
  destruct (calculate_shengtang_value_valid row K Hcp HK)
    as (S & T & bf & HS & HT & _ & _ & Hbf & Hres).
  eexists. split; [exact Hres|]. result_fields.
  pose proof (get_credit_spread_bounds (row_get (rating row) (RatingStr "AA")))
    as Hspread.
  set (d := risk_free_rate SHENGTANG_CONFIG
            + get_credit_spread (row_get (rating row) (RatingStr "AA"))) in *.
  set (sigma := default_volatility SHENGTANG_CONFIG
                * volatility_adjustment SHENGTANG_CONFIG) in *.
  set (r := risk_free_rate SHENGTANG_CONFIG) in *.
  assert (Hd : 0 < d) by (subst d r; cbn; lra).
  assert (Hbf0 : 0 <= bf).
  { eapply calculate_bond_floor_default_nonneg; [| | | |exact Hbf].
    - lra.
    - lra.
    - apply conversion_probs_nonempty. lra.
    - apply conversion_probs_range. }
  pose proof (calculate_put_value_pos 100 103 (Rmax 0 (T - 2)) d 0.1
                ltac:(lra) ltac:(lra)) as Hpv.
  pose proof (calculate_downward_revision_value_nonneg S K T sigma r
                (Rmax 0 (T - 2))) as Hrv.
  pose proof (calculate_forced_redemption_loss_bounds S K T sigma r 1.30 HK)
    as Hrl.
  set (pv := calculate_put_value _ _ _ _ _) in *.
  set (co := calculate_call_option_value _ _ _ _ _) in *.
  set (rv := calculate_downward_revision_value _ _ _ _ _ _) in *.
  set (rl := calculate_forced_redemption_loss _ _ _ _ _ _) in *.
  rewrite Rmax_right by lra.
  assert (Htot : 0 < bf + pv + co + rv - rl) by lra.
  assert (E : Rlt_b 0 (bf + pv + co + rv - rl) = true) by now apply Rlt_b_true.
  rewrite E.
  repeat split; try assumption; try lra.
Qed.

(** X11.  A row with a valid conversion price always has a positive total
    value: the redemption loss never exceeds the conversion option, so the
    total is at least bond floor plus put value plus revision value, and the
    put value is positive.  The screen [st_total_value > 0] drops no such
    row. *)
Theorem total_value_positive :
  forall row,
    valid_input (convert_price row) ->
    exists res,
      calculate_shengtang_value row SHENGTANG_CONFIG = Some res
      /\ 0 < put_value res
      /\ bond_floor res + put_value res + revision_value res
         <= total_value res
      /\ 0 < total_value res.
Proof.
  intros row Hcp.
  destruct (valuation_summary row Hcp)
    as (res & Hres & Hpv & Hsum & Hbf & Hrv & _).
  exists res. repeat split; try assumption. lra.
Qed.

(** X12.  For a row with a valid conversion price and a price [p], the
    deviation [x] is a number with [total_value * (1 + x / 100) = p]: it is
    negative exactly when the price is below the total value. *)
Theorem value_deviation_sign :
  forall row p,
    valid_input (convert_price row) ->
    row_get (price row) (Fin 100) = Fin p ->
    exists res x,
      calculate_shengtang_value row SHENGTANG_CONFIG = Some res
      /\ current_price res = Fin p
      /\ value_deviation res = Fin x
      /\ total_value res * (1 + x / 100) = p
      /\ (x < 0 <-> p < total_value res).
Proof.
  intros row p Hcp Hp.
  destruct (valuation_summary row Hcp)
    as (res & Hres & Hpv & Hsum & Hbf & Hrv & Hcur & Hdev).
  rewrite Hp in Hcur, Hdev.
  assert (Htot : 0 < total_value res) by lra.
  exists res. eexists. split; [exact Hres|]. split; [exact Hcur|].
  split; [exact Hdev|].
  set (t := total_value res) in *.
  split; [field; lra|].
  assert (Hq : (p - t) / t * t = p - t) by (field; lra).
  split; intros H.
  - assert (Hn : (p - t) / t < 0) by lra.
    assert ((p - t) / t * t < 0 * t)
      by (apply Rmult_lt_compat_r; assumption).
    lra.
  - assert (Hn : (p - t) / t < 0); [|lra].
    unfold Rdiv. apply Ropp_lt_cancel. rewrite Ropp_0.
    replace (- ((p - t) * / t)) with ((t - p) * / t) by ring.
    apply Rmult_lt_0_compat; [lra|]. now apply Rinv_0_lt_compat.
Qed.

Lemma stock_price_fallback_value sp K :
  0 < K -> nan_or_not_positive sp ->
  (if isna sp || fle sp 0
   then if fgt (Fin K) 0 then fmap2 Rmult (Fin K) (Fin 0.8) else Fin 10
   else sp) = Fin (K * 0.8).
Proof.
  intros HK Hsp.
  assert (E : isna sp || fle sp 0 = true).
  { destruct sp as [|s]; cbn in *; [reflexivity|]. now apply Rle_b_true. }
  rewrite E. cbn.
  assert (E' : Rlt_b 0 K = true) by now apply Rlt_b_true.
  now rewrite E'.
Qed.

Lemma stock_price_kept s (alt : pyfloat) :
  0 < s ->
  (if isna (Fin s) || fle (Fin s) 0 then alt else Fin s) = Fin s.
Proof.
  intros Hs. cbn.
  assert (E : Rle_b s 0 = false) by now apply Rle_b_false.
  now rewrite E.
Qed.

(** X13.  A row whose stock price is missing or not positive, with the
    valid conversion price [K], is valued exactly as the same row with the
    stock price [0.8 * K]. *)
Theorem stock_price_fallback :
  forall row K config,
    convert_price row = Some (Fin K) -> 0 < K ->
    nan_or_not_positive (row_get (stock_price row) (Fin 0)) ->
    calculate_shengtang_value row config
    = calculate_shengtang_value
        (with_stock_price (Some (Fin (K * 0.8))) row) config.
Proof.
  intros row K config Hcp HK Hsp.
  unfold calculate_shengtang_value. cbv zeta.
  cbn [price stock_price convert_price years_to_maturity rating premium_rate
       with_stock_price].
  rewrite Hcp. cbn [row_get].
  rewrite (stock_price_fallback_value _ K HK Hsp).
  rewrite (stock_price_kept (K * 0.8)) by lra.
  reflexivity.
Qed.

Lemma years_fallback_value y :
  nan_or_not_positive y ->
  (if isna y || fle y 0 then Fin 0.1 else y) = Fin 0.1.
Proof.
  intros Hy.
  assert (E : isna y || fle y 0 = true).
  { destruct y as [|t]; cbn in *; [reflexivity|]. now apply Rle_b_true. }
  now rewrite E.
Qed.

(** X14.  A row without a years-to-maturity label is valued as with 3
    years; a row whose years to maturity are missing or not positive is
    valued as with 0.1 year. *)
Theorem years_to_maturity_fallback :
  forall row config,
    (years_to_maturity row = None ->
     calculate_shengtang_value row config
     = calculate_shengtang_value
         (with_years_to_maturity (Some (Fin 3)) row) config)
    /\ (forall y,
          years_to_maturity row = Some y -> nan_or_not_positive y ->
          calculate_shengtang_value row config
          = calculate_shengtang_value
              (with_years_to_maturity (Some (Fin 0.1)) row) config).
Proof.
  intros row config. split.
  - intros Hy. unfold calculate_shengtang_value. cbv zeta.
    cbn [price stock_price convert_price years_to_maturity rating
         premium_rate with_years_to_maturity].
    rewrite Hy. reflexivity.
  - intros y Hy Hbad. unfold calculate_shengtang_value. cbv zeta.
    cbn [price stock_price convert_price years_to_maturity rating
         premium_rate with_years_to_maturity].
    rewrite Hy. cbn [row_get].
    rewrite (years_fallback_value y Hbad).
    assert (E : (if isna (Fin 0.1) || fle (Fin 0.1) 0 then Fin 0.1
                 else Fin 0.1) = Fin 0.1)
      by (destruct (isna (Fin 0.1) || fle (Fin 0.1) 0); reflexivity).
    rewrite ?E. reflexivity.
Qed.

(** ** The ranked output, continued *)

Lemma Forall2_nth_error {A B : Type} (P : A -> B -> Prop) l vs i a :
  Forall2 P l vs -> nth_error l i = Some a ->
  exists b, nth_error vs i = Some b /\ P a b.
Proof.
  intros H. revert i. induction H as [|x y l vs Hxy _ IH]; intros i.
  - destruct i; discriminate.
  - destruct i as [|i]; cbn.
    + intros [= <-]. eauto.
    + apply IH.
Qed.

Lemma enumerate_from_nth cs vs start i c v :
  nth_error cs i = Some c -> nth_error vs i = Some v ->
  In {| position := start + i; cells := c; st := v |}
     (enumerate_from start cs vs).
Proof.
  revert vs start i. induction cs as [|c0 cs IH]; intros vs start i.
  - destruct i; discriminate.
  - destruct vs as [|v0 vs]; [destruct i; discriminate|].
    destruct i as [|i]; cbn.
    + intros [= <-] [= <-]. left. now rewrite Nat.add_0_r.
    + intros Hc Hv. right.
      replace (start + Datatypes.S i)%nat with (Datatypes.S start + i)%nat
        by lia.
      now apply IH.
Qed.

Lemma enumerate_from_length cs vs start :
  (List.length (enumerate_from start cs vs) <= List.length cs)%nat.
Proof.
  revert vs start. induction cs as [|c cs IH]; intros [|v vs] start; cbn;
    try lia.
  specialize (IH vs (Datatypes.S start)). lia.
Qed.

Lemma screen_length cols max l :
  (List.length (screen cols max l) <= List.length l)%nat.
Proof.
  unfold screen. cbv zeta.
  set (f1 := fun e => Rlt_b 0 (st_total_value e)).
  set (f2 := fun e => flt (st_value_deviation e) 0).
  set (f3 := fun e => flt (cell_premium_rate (cells e)) max).
  pose proof (filter_length_le f1 l).
  pose proof (filter_length_le f2 (filter f1 l)).
  pose proof (filter_length_le f3 (filter f2 (filter f1 l))).
  destruct (has_premium_rate cols); lia.
Qed.

Lemma head_all {A : Type} (l : list A) n :
  (Z.of_nat (List.length l) <= n)%Z -> head l n = l.
Proof.
  intros Hn. unfold head.
  destruct (Z.leb_spec 0 n); [|lia].
  apply firstn_all2. lia.
Qed.

(** X15.  Nothing but the truncation loses a row: a row of the batch whose
    valuation has a positive total and a negative deviation, and whose
    premium rate is below the ceiling when the batch has that column, is in
    the output whenever [top_n] is at least the number of rows. *)
Theorem screened_rows_are_returned :
  forall df top_n max_premium_rate i c v,
    nth_error (rows df) i = Some c ->
    calculate_shengtang_value (series_of (columns df) c) SHENGTANG_CONFIG
    = Some v ->
    0 < total_value v ->
    (exists x, value_deviation v = Fin x /\ x < 0) ->
    (has_premium_rate (columns df) = true ->
     exists p, cell_premium_rate c = Fin p /\ p < max_premium_rate) ->
    (Z.of_nat (List.length (rows df)) <= top_n)%Z ->
    exists out,
      strategy_shengtang df top_n max_premium_rate = Some out
      /\ In {| position := i; cells := c; st := v |} out.
Proof.
  intros df top_n max i c v Hnth Hval Htot Hdev Hprem Hn.
  destruct (strategy_shengtang_total df top_n max) as [out Hout].
  { intros Hr. rewrite Hr in Hnth. destruct i; discriminate. }
  exists out. split; [exact Hout|].
  apply strategy_shengtang_inv in Hout as (vs & Hvs & ->).
  destruct (Forall2_nth_error _ _ _ _ _ Hvs Hnth) as (v' & Hv' & Hcalc).
  rewrite Hval in Hcalc. injection Hcalc as <-.
  set (df3 := screen (columns df) max (enumerate_from 0 (rows df) vs)).
  assert (Hperm := sort_values_permutation st_value_deviation df3).
  rewrite head_all.
  - eapply Permutation_in; [exact Hperm|].
    subst df3. apply screen_In. split; [|auto].
    exact (enumerate_from_nth (rows df) vs 0 i c v Hnth Hv').
  - rewrite <- (Permutation_length Hperm).
    pose proof (screen_length (columns df) max
                  (enumerate_from 0 (rows df) vs)).
    pose proof (enumerate_from_length (rows df) vs 0).
    fold df3 in H. lia.
Qed.

Lemma increasing_positions l : increasing l -> NoDup (map position l).
Proof.
  induction 1 as [|x l Hl IH Hx]; cbn; constructor; [|assumption].
  rewrite Forall_forall in Hx. intros Hin.
  apply in_map_iff in Hin as (y & Hy & Hin). apply Hx in Hin. lia.
Qed.

Lemma NoDup_firstn {A : Type} (l : list A) n : NoDup l -> NoDup (firstn n l).
Proof.
  intros H. rewrite <- (firstn_skipn n l) in H.
  now apply NoDup_app_remove_r in H.
Qed.

(** X16.  No row of the batch is returned twice, and no more rows are
    returned than the batch has. *)
Theorem returned_rows_are_distinct :
  forall df top_n max_premium_rate out,
    strategy_shengtang df top_n max_premium_rate = Some out ->
    NoDup (map position out)
    /\ (List.length out <= List.length (rows df))%nat.
Proof.
  intros df top_n max out Hout.
  apply strategy_shengtang_inv in Hout as (vs & Hvs & ->).
  set (df3 := screen (columns df) max (enumerate_from 0 (rows df) vs)).
  assert (Hperm := sort_values_permutation st_value_deviation df3).
  assert (Hinc : increasing df3)
    by apply increasing_screen, enumerate_from_increasing.
  split.
  - unfold head.
    destruct (0 <=? top_n)%Z; rewrite <- firstn_map; apply NoDup_firstn;
      (eapply Permutation_NoDup;
       [apply Permutation_map; exact Hperm|now apply increasing_positions]).
  - pose proof (screen_length (columns df) max
                  (enumerate_from 0 (rows df) vs)) as H1.
    pose proof (enumerate_from_length (rows df) vs 0) as H2.
    pose proof (Permutation_length Hperm) as H3. fold df3 in H1.
    unfold head.
    destruct (0 <=? top_n)%Z; rewrite length_firstn; lia.
Qed.


(** X18.  A row whose price is missing is never returned, and neither is a
    row whose premium rate is missing in a batch that has the column: the
    comparisons of the screen are false on a missing value. *)
Theorem missing_cells_are_never_returned :
  forall df i c,
    nth_error (rows df) i = Some c ->
    price (series_of (columns df) c) = Some NaN
    \/ premium_rate (series_of (columns df) c) = Some NaN ->
    forall top_n max_premium_rate,
      exists out,
        strategy_shengtang df top_n max_premium_rate = Some out
        /\ forall e, In e out -> position e <> i.
Proof.
  intros df i c Hnth Hmiss top_n max.
  destruct (strategy_shengtang_total df top_n max) as [out Hout].
  { intros Hr. rewrite Hr in Hnth. destruct i; discriminate. }
  exists out. split; [exact Hout|].
  intros e He Hpos.
  destruct (strategy_shengtang_In _ _ _ _ _ Hout He)
    as (Hrow & Hval & Htot & (x & Hdev & Hx) & Hprem).
  rewrite Hpos, Hnth in Hrow. injection Hrow as Hc. rewrite <- Hc in *.
  unfold st_total_value, st_value_deviation in *.
  destruct Hmiss as [Hprice|Hpremium].
  - set (row := series_of (columns df) c) in *.
    assert (Hp : row_get (price row) (Fin 100) = NaN)
      by (rewrite Hprice; reflexivity).
    destruct (row_get (convert_price row) (Fin 0)) as [|K] eqn:Hcp.
    + rewrite calculate_shengtang_value_invalid in Hval
        by (destruct (convert_price row) as [[|k]|]; cbn in *;
            try exact I; discriminate).
      injection Hval as Hst. rewrite <- Hst in Htot. cbn in Htot. lra.
    + destruct (Rle_dec K 0) as [HK|HK].
      * rewrite calculate_shengtang_value_invalid in Hval.
        -- injection Hval as Hst. rewrite <- Hst in Htot. cbn in Htot. lra.
        -- destruct (convert_price row) as [[|k]|]; cbn in *; try exact I.
           injection Hcp as ->. exact HK.
      * destruct (calculate_shengtang_value_valid row K Hcp ltac:(lra))
          as (S & T & bf & _ & _ & _ & _ & _ & Hres).
        cbv zeta in Hres. rewrite Hp in Hres.
        rewrite Hres in Hval. injection Hval as Hst.
        rewrite <- Hst in Hdev. cbn [value_deviation] in Hdev.
        destruct (Rlt_b 0 _) in Hdev; [discriminate|].
        injection Hdev as <-. lra.
  - cbn [premium_rate series_of] in Hpremium. unfold label in Hpremium.
    destruct (has_premium_rate (columns df)) eqn:Hcol; [|discriminate].
    injection Hpremium as Hnan.
    destruct (Hprem eq_refl) as (p & Hp & _).
    rewrite Hnan in Hp. discriminate.
Qed.

(** X28.  Of the configuration passed to it, [calculate_shengtang_value]
    reads the risk-free rate, the two volatility constants and the
    conversion threshold only: the credit spreads and the revision
    probability come from the module's own [SHENGTANG_CONFIG], so two
    configurations that agree on those four fields give the same result. *)
Theorem calculate_shengtang_value_config :
  forall row c1 c2,
    risk_free_rate c1 = risk_free_rate c2 ->
    default_volatility c1 = default_volatility c2 ->
    volatility_adjustment c1 = volatility_adjustment c2 ->
    conversion_threshold c1 = conversion_threshold c2 ->
    calculate_shengtang_value row c1 = calculate_shengtang_value row c2.
Proof.
  intros row c1 c2 Hr Hv Ha Ht.
  unfold calculate_shengtang_value. cbv zeta.
  rewrite Hr, Hv, Ha, Ht. reflexivity.
Qed.

End Valuation.

(** * The instances meet their contracts *)

Lemma step_cdf_range x : 0 <= step_cdf x <= 1.
Proof.
  unfold step_cdf. destruct (Rlt_b x 0); [lra|].
  destruct (Rlt_b 0 x); lra.
Qed.

Lemma step_cdf_neg x : x < 0 -> step_cdf x = 0.
Proof.
  intros H. unfold step_cdf.
  assert (E : Rlt_b x 0 = true) by now apply Rlt_b_true.
  now rewrite E.
Qed.

Lemma step_cdf_pos x : 0 < x -> step_cdf x = 1.
Proof.
  intros H. unfold step_cdf.
  assert (E : Rlt_b x 0 = false) by (apply Rlt_b_false; lra).
  assert (E' : Rlt_b 0 x = true) by now apply Rlt_b_true.
  now rewrite E, E'.
Qed.

Lemma step_cdf_0 : step_cdf 0 = 1 / 2.
Proof.
  unfold step_cdf.
  assert (E : Rlt_b 0 0 = false) by (apply Rlt_b_false; lra).
  now rewrite E.
Qed.

Lemma step_cdf_monotone x y : x <= y -> step_cdf x <= step_cdf y.
Proof.
  intros Hxy.
  destruct (Rtotal_order x 0) as [Hx|[->|Hx]].
  - rewrite (step_cdf_neg x Hx). apply step_cdf_range.
  - destruct Hxy as [Hy| <-]; [|lra].
    rewrite step_cdf_0, (step_cdf_pos y Hy). lra.
  - rewrite (step_cdf_pos x Hx), (step_cdf_pos y) by lra. lra.
Qed.

Lemma step_cdf_symmetric x : step_cdf (- x) = 1 - step_cdf x.
Proof.
  destruct (Rtotal_order x 0) as [Hx|[->|Hx]].
  - rewrite (step_cdf_neg x Hx), step_cdf_pos by lra. lra.
  - rewrite Ropp_0, step_cdf_0. lra.
  - rewrite (step_cdf_pos x Hx), step_cdf_neg by lra. lra.
Qed.

Lemma exp_ge_1 x : 0 <= x -> 1 <= exp x.
Proof.
  intros [Hx| <-]; [|rewrite exp_0; lra].
  pose proof (exp_ineq1 x ltac:(lra)). lra.
Qed.

Lemma step_cdf_mills x y :
  x <= y -> step_cdf x * exp (x ^ 2 / 2) <= step_cdf y * exp (y ^ 2 / 2).
Proof.
  intros Hxy.
  assert (Hy0 : 0 <= step_cdf y * exp (y ^ 2 / 2)).
  { apply Rmult_le_pos; [apply step_cdf_range|left; apply exp_pos]. }
  destruct (Rtotal_order x 0) as [Hx|[->|Hx]].
  - rewrite (step_cdf_neg x Hx). lra.
  - destruct Hxy as [Hy| <-]; [|lra].
    rewrite step_cdf_0, (step_cdf_pos y Hy).
    replace (0 ^ 2 / 2) with 0 by field. rewrite exp_0.
    assert (1 <= exp (y ^ 2 / 2)); [|lra].
    apply exp_ge_1. nra.
  - rewrite (step_cdf_pos x Hx), (step_cdf_pos y) by lra.
    rewrite !Rmult_1_l.
    destruct (Req_dec x y) as [->|Hne]; [lra|].
    left. apply exp_increasing. nra.
Qed.

Lemma key_leb_le a b : key_leb a b = true <-> key_le a b.
Proof.
  destruct a as [|x], b as [|y]; cbn; try tauto.
  - split; [discriminate|contradiction].
  - apply Rle_b_true.
Qed.

Lemma key_leb_refl a : key_leb a a = true.
Proof. destruct a as [|x]; cbn; [reflexivity|]. apply Rle_b_true. lra. Qed.

Lemma key_le_total a b : key_leb a b = false -> key_le b a.
Proof.
  destruct a as [|x], b as [|y]; cbn; try discriminate; try tauto.
  intros H. apply Rle_b_false in H. lra.
Qed.

Lemma insert_by_permutation key e l : Permutation (e :: l) (insert_by key e l).
Proof.
  induction l as [|h t IH]; cbn; [reflexivity|].
  destruct (key_leb (key e) (key h)); [reflexivity|].
  rewrite perm_swap. now constructor.
Qed.

Lemma insertion_sort_permutation key l : Permutation l (insertion_sort key l).
Proof.
  induction l as [|e l IH]; cbn; [constructor|].
  rewrite <- insert_by_permutation. now constructor.
Qed.

Lemma insert_by_sorted key e l :
  Sorted (fun a b => key_le (key a) (key b)) l ->
  Sorted (fun a b => key_le (key a) (key b)) (insert_by key e l).
Proof.
  induction 1 as [|h t Ht IH Hh]; cbn.
  - repeat constructor.
  - destruct (key_leb (key e) (key h)) eqn:E.
    + constructor; [now constructor|]. constructor. now apply key_leb_le.
    + constructor; [assumption|].
      destruct t as [|h' t']; cbn in *.
      * constructor. now apply key_le_total.
      * destruct (key_leb (key e) (key h')).
        -- constructor. now apply key_le_total.
        -- inversion Hh; subst. now constructor.
Qed.

Lemma insertion_sort_sorted key l :
  Sorted (fun a b => key_le (key a) (key b)) (insertion_sort key l).
Proof.
  induction l as [|e l IH]; cbn; [constructor|]. now apply insert_by_sorted.
Qed.

(** * Concrete rows and batches *)

(** C1, as stated, fails on the price field: the bond quoted at 95 with the
    conversion price 0 gets [current_price = 95], so not every field of its
    result is 0. *)
Lemma zero_strike_current_price :
  invalid_convert_price
    (convert_price (series_of all_columns zero_strike_bond))
  /\ exists res,
       calculate_shengtang_value step_cdf
         (series_of all_columns zero_strike_bond) SHENGTANG_CONFIG = Some res
       /\ current_price res = Fin 95
       /\ ~ all_fields_zero res.
Proof.
  split; [cbn; lra|].
  eexists. split.
  - apply calculate_shengtang_value_invalid. cbn. lra.
  - split; [reflexivity|].
    intros (_ & _ & _ & _ & _ & _ & Hprice & _).
    cbn in Hprice. injection Hprice as Hprice. lra.
Qed.

Lemma short_dated_bond_undervalued :
  exists v,
    calculate_shengtang_value step_cdf
      (series_of all_columns short_dated_bond) SHENGTANG_CONFIG = Some v
    /\ 0 < total_value v
    /\ exists x, value_deviation v = Fin x /\ x < 0.
Proof.
  apply (short_dated_undervalued step_cdf
           (series_of all_columns short_dated_bond) 25 0.5 95);
    first [reflexivity | lra].
Qed.

(** C7, as stated, fails for a threshold that is not positive: with three
    years to run and a volatility of 0.385, the threshold -130 makes
    [required_stock_price] negative, [np.log] is applied to the negative
    ratio 20 / -32.5, and the value returned is [nan], not a probability. *)
Lemma negative_threshold_probability_is_nan :
  calculate_conversion_probability_checked step_cdf 20 25 3 0.385 (- (130))
  = Some NaN
  /\ ~ (exists p,
          calculate_conversion_probability_checked step_cdf
            20 25 3 0.385 (- (130))
          = Some (Fin p)
          /\ 0 <= p <= 1).
Proof.
  assert (H : calculate_conversion_probability_checked step_cdf
                20 25 3 0.385 (- (130)) = Some NaN).
  { unfold calculate_conversion_probability_checked.
    rewrite (proj2 (Rle_b_false 3 0)) by lra.
    rewrite (proj2 (Rle_b_false 0.385 0)) by lra.
    cbn [orb].
    rewrite (proj2 (Req_b_false (25 * - (130) / 100) 0)) by lra.
    cbv zeta.
    rewrite (proj2 (Rlt_b_true (20 / (25 * - (130) / 100)) 0)); [reflexivity|].
    replace (25 * - (130) / 100) with (- (32.5)) by lra.
    assert (Hi : / - (32.5) < 0) by (apply Rinv_lt_0_compat; lra).
    unfold Rdiv. nra. }
  split; [exact H|].
  intros [p [Hp _]]. rewrite H in Hp. discriminate Hp.
Qed.

(** * The theorems at concrete inputs *)

Lemma invalid_convert_price_excluded_witness :
  exists res,
    calculate_shengtang_value step_cdf
      (series_of (columns zero_strike_batch) zero_strike_bond)
      SHENGTANG_CONFIG = Some res
    /\ valuation_fields_zero res
    /\ current_price res
       = row_get (price (series_of (columns zero_strike_batch)
                           zero_strike_bond)) (Fin 100)
    /\ forall top_n max_premium_rate,
         exists out,
           strategy_shengtang step_cdf insertion_sort zero_strike_batch
             top_n max_premium_rate = Some out
           /\ forall e, In e out -> position e <> 0%nat.
Proof.
  apply (invalid_convert_price_excluded step_cdf insertion_sort
           insertion_sort_permutation zero_strike_batch 0 zero_strike_bond).
  - reflexivity.
  - simpl. lra.
Defined.

Lemma valid_short_dated_stock_price :
  valid_input (stock_price (series_of all_columns short_dated_bond)).
Proof. exists 20. split; [reflexivity|lra]. Defined.

Lemma valid_short_dated_convert_price :
  valid_input (convert_price (series_of all_columns short_dated_bond)).
Proof. exists 25. split; [reflexivity|lra]. Defined.

Lemma total_value_is_sum_witness :
  exists res,
    calculate_shengtang_value step_cdf
      (series_of all_columns short_dated_bond) SHENGTANG_CONFIG = Some res
    /\ total_value res
       = bond_floor res + put_value res + call_option_value res
         + revision_value res - redemption_loss res
    /\ 0 <= put_value res
    /\ Rmax (bond_floor res) (bond_floor res + put_value res)
       = bond_floor res + put_value res.
Proof.
  apply (total_value_is_sum step_cdf (series_of all_columns short_dated_bond)).
  - exact valid_short_dated_stock_price.
  - exact valid_short_dated_convert_price.
Defined.

Lemma components_nonneg_witness :
  exists res,
    calculate_shengtang_value step_cdf
      (series_of all_columns short_dated_bond) SHENGTANG_CONFIG = Some res
    /\ 0 <= bond_floor res
    /\ 0 <= put_value res
    /\ 0 <= call_option_value res
    /\ 0 <= revision_value res
    /\ 0 <= redemption_loss res
    /\ total_value res
       = Rmax (bond_floor res) (bond_floor res + put_value res)
         + call_option_value res + revision_value res - redemption_loss res.
Proof.
  apply (components_nonneg step_cdf step_cdf_range
           (series_of all_columns short_dated_bond)).
  - exact valid_short_dated_stock_price.
  - exact valid_short_dated_convert_price.
Defined.

Lemma put_call_parity_witness :
  black_scholes_call step_cdf 20 25 3 0.025 0.385
  - black_scholes_put step_cdf 20 25 3 0.025 0.385
  = 20 - 25 * exp (- (0.025) * 3).
Proof.
  apply (put_call_parity step_cdf step_cdf_symmetric step_cdf_mills
           20 25 3 0.025 0.385); lra.
Defined.

Lemma calculate_conversion_probability_monotone_witness :
  exists p1 p2,
    calculate_conversion_probability_checked step_cdf 20 25 3 0.385 130
    = Some (Fin p1)
    /\ calculate_conversion_probability_checked step_cdf 30 25 3 0.385 130
       = Some (Fin p2)
    /\ p1 <= p2
    /\ 0 <= p1 <= 1
    /\ 0 <= p2 <= 1.
Proof.
  apply (calculate_conversion_probability_monotone step_cdf step_cdf_range
           step_cdf_monotone 25 3 0.385 130 20 30); lra.
Defined.

Lemma calculate_bond_floor_no_conversion_witness :
  (0 < 3 ->
   calculate_bond_floor 100 None 3 0.04 None
   = Some (plain_present_value 100 (coupon_schedule None) 0.04 3))
  /\ (3 <= 0 -> calculate_bond_floor 100 None 3 0.04 None = Some 100).
Proof.
  apply (calculate_bond_floor_no_conversion 100 None 0.04 3 None).
  - lra.
  - exact I.
Defined.

Lemma get_credit_spread_spec_witness :
  isascii "ZZ" = true
  /\ ~ In (upper (strip "ZZ")) rating_keys
  /\ get_credit_spread (RatingStr "ZZ") = 0.025.
Proof.
  assert (H : ~ In (upper (strip "ZZ")) rating_keys).
  { simpl. intros H.
    repeat (destruct H as [H|H]; [discriminate H|]). exact H. }
  split; [reflexivity|]. split; [exact H|].
  destruct get_credit_spread_spec as (_ & _ & _ & _ & Hother & _).
  exact (Hother "ZZ"%string eq_refl H).
Defined.

Lemma tied_batch_has_rows : rows tied_batch <> [].
Proof. discriminate. Defined.

Lemma strategy_shengtang_contract_witness :
  exists out,
    strategy_shengtang step_cdf insertion_sort tied_batch 10 50 = Some out
    /\ ((0 <= 10)%Z -> (Z.of_nat (List.length out) <= 10)%Z)
    /\ (forall e,
          In e out ->
          nth_error (rows tied_batch) (position e) = Some (cells e)
          /\ calculate_shengtang_value step_cdf
               (series_of (columns tied_batch) (cells e))
               SHENGTANG_CONFIG = Some (st e)
          /\ 0 < total_value (st e)
          /\ (exists x, value_deviation (st e) = Fin x /\ x < 0)
          /\ (forall c,
                premium_rate (series_of (columns tied_batch) (cells e))
                = Some c ->
                exists p, c = Fin p /\ p <= 50))
    /\ ascending out.
Proof.
  apply (strategy_shengtang_contract step_cdf insertion_sort
           insertion_sort_permutation insertion_sort_sorted tied_batch 10 50).
  exact tied_batch_has_rows.
Defined.

(** * Indicators *)

(** X19.  [calculate_convert_value] is a number exactly when the stock price
    is a number and the conversion price a positive number, and then it is
    [stock_price / convert_price * face_value]; otherwise it is missing. *)
Theorem calculate_convert_value_number :
  forall stock_price convert_price face_value v,
    calculate_convert_value stock_price convert_price face_value = Fin v
    <-> exists s k,
          stock_price = Fin s /\ convert_price = Fin k /\ 0 < k
          /\ v = s / k * face_value.
Proof.
  intros sp cp face v. unfold calculate_convert_value. split.
  - destruct cp as [|k]; cbn; [discriminate|].
    destruct (Rle_b k 0) eqn:E; cbn; [discriminate|].
    apply Rle_b_false in E.
    destruct sp as [|s]; cbn; [discriminate|].
    intros [= <-]. exists s, k. auto.
  - intros (s & k & -> & -> & Hk & ->). cbn.
    assert (E : Rle_b k 0 = false) by now apply Rle_b_false.
    now rewrite E.
Qed.

(** X20.  For a positive conversion value the premium rate [x] is a number
    with [convert_value * (1 + x / 100) = cb_price]: it is negative exactly
    when the bond is priced below its conversion value. *)
Theorem calculate_premium_rate_round_trip :
  forall cb_price convert_value,
    0 < convert_value ->
    exists x,
      calculate_premium_rate (Fin cb_price) (Fin convert_value) = Fin x
      /\ convert_value * (1 + x / 100) = cb_price
      /\ (x < 0 <-> cb_price < convert_value).
Proof.
  intros p cv Hcv. unfold calculate_premium_rate. cbn.
  assert (E : Rle_b cv 0 = false) by now apply Rle_b_false.
  rewrite E. cbn. eexists. split; [reflexivity|].
  split; [field; lra|].
  assert (Hq : (p - cv) / cv * cv = p - cv) by (field; lra).
  split; intros H.
  - assert (Hn : (p - cv) / cv < 0) by lra.
    assert ((p - cv) / cv * cv < 0 * cv)
      by (apply Rmult_lt_compat_r; assumption).
    lra.
  - assert (Hn : (p - cv) / cv < 0); [|lra].
    unfold Rdiv. apply Ropp_lt_cancel. rewrite Ropp_0.
    replace (- ((p - cv) * / cv)) with ((cv - p) * / cv) by ring.
    apply Rmult_lt_0_compat; [lra|]. now apply Rinv_0_lt_compat.
Qed.

(** X21.  A conversion price that is missing or not positive leaves the
    three indicators missing: the conversion value, the premium rate
    computed from it and the double-low value computed from that. *)
Theorem indicators_missing_without_convert_price :
  forall price stock_price convert_price face_value coefficient,
    nan_or_not_positive convert_price ->
    let convert_value :=
      calculate_convert_value stock_price convert_price face_value in
    let premium := calculate_premium_rate price convert_value in
    convert_value = NaN
    /\ premium = NaN
    /\ calculate_double_low price premium coefficient = NaN.
Proof.
  intros p sp cp face coef Hcp. cbv zeta.
  assert (Hcv : calculate_convert_value sp cp face = NaN).
  { unfold calculate_convert_value. destruct cp as [|k]; cbn in *.
    - reflexivity.
    - assert (E : Rle_b k 0 = true) by now apply Rle_b_true.
      now rewrite E. }
  rewrite Hcv. repeat split.
  unfold calculate_double_low. cbn. now rewrite orb_true_r.
Qed.

(** X22.  With the configured coefficient 1.0, [calculate_double_low] is
    the column that [strategy_double_low_ytm] computes on its own:
    [price + premium_rate], missing when either is. *)
Theorem calculate_double_low_default :
  forall price premium_rate,
    calculate_double_low price premium_rate DOUBLE_LOW_COEFFICIENT
    = double_low_column price premium_rate.
Proof.
  intros [|p] [|q]; unfold calculate_double_low, double_low_column; cbn;
    try reflexivity.
  f_equal. unfold DOUBLE_LOW_COEFFICIENT. lra.
Qed.

Lemma INR_le_floor y T : (Z.of_nat y <= Zfloor T)%Z -> INR y <= T.
Proof.
  intros Hy. destruct (Zfloor_bound T) as [Hf _].
  rewrite INR_IZR_INZ. apply IZR_le in Hy. lra.
Qed.

Lemma filter_within T a n :
  (Z.of_nat (a + n) <= Zfloor T + 1)%Z ->
  filter (fun y => Rle_b (INR y) T) (seq a n) = seq a n.
Proof.
  revert a. induction n as [|n IH]; intros a Ha; cbn; [reflexivity|].
  assert (E : Rle_b (INR a) T = true)
    by (apply Rle_b_true, INR_le_floor; lia).
  rewrite E. f_equal. apply IH. lia.
Qed.

(** The years of the bond-floor loop that pay a coupon are the whole years
    up to [T]. *)
Lemma coupon_years T :
  0 < T ->
  filter (fun y => Rle_b (INR y) T) (seq 1 (Z.to_nat (Zceil T)))
  = seq 1 (Z.to_nat (Zfloor T)).
Proof.
  intros HT.
  destruct (Zfloor_bound T) as [Hf1 Hf2].
  destruct (Zceil_bound T) as [Hc1 Hc2].
  assert (Hf0 : (0 <= Zfloor T)%Z) by (apply Zfloor_lub; lra).
  assert (Hfc : (Zfloor T <= Zceil T)%Z).
  { apply le_IZR. lra. }
  assert (Hcf : (Zceil T <= Zfloor T + 1)%Z).
  { assert (H : IZR (Zceil T) < IZR (Zfloor T + 1 + 1)).
    { rewrite !plus_IZR. lra. }
    apply lt_IZR in H. lia. }
  destruct (Z.eq_dec (Zceil T) (Zfloor T)) as [->|Hne].
  - apply filter_within. lia.
  - replace (Z.to_nat (Zceil T)) with (Z.to_nat (Zfloor T) + 1)%nat by lia.
    rewrite seq_app, filter_app, filter_within by lia.
    cbn [seq filter].
    assert (E : Rle_b (INR (1 + Z.to_nat (Zfloor T))) T = false).
    { apply Rle_b_false. rewrite INR_IZR_INZ.
      replace (Z.of_nat (1 + Z.to_nat (Zfloor T))) with (Zfloor T + 1)%Z
        by lia.
      rewrite plus_IZR. lra. }
    rewrite E. apply app_nil_r.
Qed.

Lemma fold_left_coupons (g : nat -> R) l a :
  fold_left (fun pv year => pv + g year) l a
  = a + fold_right Rplus 0 (map g l).
Proof.
  revert a. induction l as [|y l IH]; intros a; cbn; [lra|].
  rewrite IH. lra.
Qed.

(** X23.  For a discount rate above -1, [calculate_pure_bond_value] of the
    indicator module is the bond floor of the valuation engine for a flat
    coupon schedule and no conversion: both add the coupons of the whole
    years up to [T] and the discounted face value. *)
Theorem calculate_pure_bond_value_is_bond_floor :
  forall face_value coupon_rate T discount_rate,
    -1 < discount_rate ->
    calculate_bond_floor face_value (Some [coupon_rate]) T discount_rate None
    = Some (calculate_pure_bond_value face_value coupon_rate T discount_rate).
Proof.
  intros face c T d _.
  unfold calculate_bond_floor, calculate_pure_bond_value.
  destruct (Rle_b T 0) eqn:Hcmp; [reflexivity|].
  apply Rle_b_false in Hcmp.
  rewrite !py_range_from_1.
  change (if (Z.of_nat (List.length [c]) =? 0)%Z
          then default_coupon_rates else [c]) with [c].
  destruct (bond_floor_loop_no_conversion face [c]
              (repeat 0.0 (Z.to_nat (Zceil T))) T d)
    with (n := Z.to_nat (Zceil T)) (a := 1%nat) (pv := 0) (rp := 1.0)
    as (pv' & rp' & Hloop & Hrp & Hpv).
  - discriminate.
  - pose proof (Zceil_pos T Hcmp).
    destruct (Z.to_nat (Zceil T)) eqn:En; [lia|discriminate].
  - apply Forall_forall. intros q Hq. apply repeat_spec in Hq. lra.
  - lia.
  - rewrite Hloop. cbn [bind]. f_equal.
    rewrite Hpv, Hrp, coupon_years by assumption.
    unfold py_int.
    assert (E : Rle_b 0 T = true) by (apply Rle_b_true; lra).
    rewrite E, fold_left_coupons.
    assert (Hterm : forall years,
               fold_right Rplus 0 (map (coupon_term face [c] d) years)
               = fold_right Rplus 0
                   (map (fun year => face * c / (1 + d) ^ year) years)).
    { intros years. f_equal. apply map_ext. intros y.
      unfold coupon_term. cbn [List.length Nat.sub].
      rewrite Nat.min_0_r. reflexivity. }
    rewrite Hterm. lra.
Qed.

(** X24.  For a positive face value, a coupon rate that is not negative and
    positive years to maturity, the simplified yield falls as the price
    rises, and at par it is the coupon rate in percent. *)
Theorem calculate_ytm_simple_decreasing :
  forall face T coupon p1 p2,
    0 < face -> 0 <= coupon -> 0 < T -> 0 < p1 -> p1 < p2 ->
    exists y1 y2,
      calculate_ytm_simple (Fin p1) face (Fin T) coupon = Fin y1
      /\ calculate_ytm_simple (Fin p2) face (Fin T) coupon = Fin y2
      /\ y2 < y1
      /\ calculate_ytm_simple (Fin face) face (Fin T) coupon
         = Fin (coupon * 100).
Proof.
  intros face T c p1 p2 Hf Hc HT Hp1 Hp12.
  assert (Eval : forall p, 0 < p ->
            calculate_ytm_simple (Fin p) face (Fin T) c
            = Fin ((face * c + (face - p) / T) / ((face + p) / 2) * 100)).
  { intros p Hp. unfold calculate_ytm_simple. cbn.
    assert (E1 : Rle_b T 0 = false) by now apply Rle_b_false.
    assert (E2 : Rle_b p 0 = false) by now apply Rle_b_false.
    now rewrite E1, E2. }
  do 2 eexists.
  split; [apply Eval; lra|]. split; [apply Eval; lra|]. split.
  - set (iT := / T).
    assert (HiT : 0 < iT) by now apply Rinv_0_lt_compat.
    unfold Rdiv. fold iT.
    set (N1 := face * c + (face - p1) * iT).
    set (N2 := face * c + (face - p2) * iT).
    set (D1 := (face + p1) * / 2).
    set (D2 := (face + p2) * / 2).
    assert (HD1 : 0 < D1) by (subst D1; lra).
    assert (HD2 : 0 < D2) by (subst D2; lra).
    assert (Hcross : N2 * D1 < N1 * D2).
    { assert (Hdiff : N1 * D2 - N2 * D1
                      = (p2 - p1) * / 2 * (face * (c + 2 * iT)))
        by (subst N1 N2 D1 D2; field).
      assert (0 < (p2 - p1) * / 2 * (face * (c + 2 * iT))).
      { apply Rmult_lt_0_compat; [lra|].
        apply Rmult_lt_0_compat; [assumption|]. lra. }
      lra. }
    assert (Hq : N2 * / D2 < N1 * / D1).
    { apply Rmult_lt_reg_r with (D1 * D2);
        [now apply Rmult_lt_0_compat|].
      replace (N2 * / D2 * (D1 * D2)) with (N2 * D1) by (field; lra).
      replace (N1 * / D1 * (D1 * D2)) with (N1 * D2) by (field; lra).
      exact Hcross. }
    lra.
  - rewrite Eval by assumption. f_equal. field. lra.
Qed.

(** X25.  The yield column of [strategy_double_low_ytm] is 0 for years to
    maturity that are missing or not positive.  For positive years and a
    positive price it is a number with the sign of [100 - price], and below
    a tenth of a year it no longer depends on the years. *)
Theorem ytm_column_cases :
  forall price years,
    (nan_or_not_positive years -> ytm_column price years = Fin 0)
    /\ (forall p t,
          price = Fin p -> years = Fin t -> 0 < p -> 0 < t ->
          exists y,
            ytm_column price years = Fin y
            /\ (0 < y <-> p < 100)
            /\ (t <= 0.1 -> ytm_column price years = ytm_column price (Fin 0.1))).
Proof.
  intros price years. split.
  - intros Hy. unfold ytm_column. destruct years as [|t]; cbn in *.
    + reflexivity.
    + assert (E : Rlt_b 0 t = false) by now apply Rlt_b_false.
      now rewrite E.
  - intros p t -> -> Hp Ht. unfold ytm_column. cbn.
    assert (E : Rlt_b 0 t = true) by now apply Rlt_b_true.
    assert (E' : Rlt_b 0 0.1 = true) by (apply Rlt_b_true; lra).
    rewrite E, E'. eexists. split; [reflexivity|].
    assert (Hm : 0 < Rmax t 0.1)
      by (apply Rlt_le_trans with 0.1; [lra|apply Rmax_r]).
    set (m := Rmax t 0.1) in *.
    assert (Hi : 0 < / (p * m))
      by (apply Rinv_0_lt_compat; now apply Rmult_lt_0_compat).
    assert (Hq : (100 - p) / p / m * 100 = (100 - p) * (100 * / (p * m)))
      by (field; lra).
    split; [rewrite Hq; split; intros H|].
    + destruct (Rlt_dec p 100) as [|Hn]; [assumption|exfalso].
      assert ((100 - p) * (100 * / (p * m)) <= 0); [|lra].
      rewrite <- (Rmult_0_l (100 * / (p * m))).
      apply Rmult_le_compat_r; lra.
    + apply Rmult_lt_0_compat; lra.
    + intros Hle. subst m. rewrite Rmax_right by lra.
      rewrite (Rmax_left 0.1 0.1) by lra. reflexivity.
Qed.

(** * The simplified valuation *)

(** X26.  [simple_valuation] returns the pair of [None]s exactly when the
    conversion value of the row is absent, missing or not positive. *)
Theorem simple_valuation_none_iff :
  forall row,
    Simple.simple_valuation row = None
    <-> nan_or_not_positive (row_get (Simple.convert_value row) (Fin 0)).
Proof.
  intros row. unfold Simple.simple_valuation. cbv zeta.
  destruct (row_get (Simple.convert_value row) (Fin 0)) as [|cv]; cbn.
  - tauto.
  - destruct (Rle_b cv 0) eqn:E.
    + apply Rle_b_true in E. tauto.
    + apply Rle_b_false in E. split; [discriminate|lra].
Qed.

Lemma simple_years_validated y :
  0 < number (if isna y || fle y 0 then Fin 0.5 else y).
Proof.
  destruct y as [|t]; cbn; [lra|].
  destruct (Rle_b t 0) eqn:E; cbn; [lra|]. now apply Rle_b_false in E.
Qed.

(** X27.  For a positive conversion value [cv] the simplified total value
    is at least [cv]; from [cv >= 100] on it is [1.5 * cv - 47.5], whatever
    the years to maturity are; and the deviation [x] of a price [p]
    satisfies [total * (1 + x / 100) = p]. *)
Theorem simple_valuation_total :
  forall row cv,
    row_get (Simple.convert_value row) (Fin 0) = Fin cv -> 0 < cv ->
    exists total deviation,
      Simple.simple_valuation row = Some (total, deviation)
      /\ cv <= total
      /\ (100 <= cv -> total = 1.5 * cv - 47.5)
      /\ forall p,
           row_get (Simple.price row) (Fin 100) = Fin p ->
           exists x, deviation = Fin x /\ total * (1 + x / 100) = p.
Proof.
  intros row cv Hcv Hpos.
  unfold Simple.simple_valuation. cbv zeta. rewrite Hcv.
  assert (G : isna (Fin cv) || fle (Fin cv) 0 = false)
    by (cbn; now apply Rle_b_false).
  rewrite G. cbn [number].
  pose proof (simple_years_validated
                (row_get (Simple.years_to_maturity row) (Fin 3))) as Hy.
  set (years := number _) in *.
  set (bf := 100 / py_pow (1 + Simple.discount_rate Simple.SIMPLE_CONFIG)
                     (Rmax years 0.5)).
  assert (Hbf : 0 < bf <= 100).
  { subst bf. unfold py_pow. cbn [Simple.discount_rate Simple.SIMPLE_CONFIG].
    assert (Hm : 0 <= Rmax years 0.5)
      by (apply Rle_trans with 0.5; [lra|apply Rmax_r]).
    assert (Hpw : 1 <= Rpower (1 + 0.03) (Rmax years 0.5))
      by (apply Rpower_ge_1; lra).
    assert (Hinv : 0 < / Rpower (1 + 0.03) (Rmax years 0.5) <= 1).
    { split; [apply Rinv_0_lt_compat; lra|].
      assert (Hi : / Rpower (1 + 0.03) (Rmax years 0.5) <= / 1)
        by (apply Rinv_le_contravar; lra).
      rewrite Rinv_1 in Hi. exact Hi. }
    unfold Rdiv. lra. }
  set (opt := if Rle_b 100 cv then cv - 100 + 5
              else Rmax 0 ((100 - cv) * 0.3 * Rmin years 3)).
  assert (Hopt : 0 <= opt).
  { subst opt. destruct (Rle_b 100 cv) eqn:E.
    - apply Rle_b_true in E. lra.
    - apply Rmax_l. }
  pose proof (Rmax_r bf cv) as Hmax.
  set (total := Rmax bf cv + opt * 0.5) in *.
  assert (Htot : cv <= total) by (subst total; lra).
  do 2 eexists. split; [reflexivity|]. split; [exact Htot|]. split.
  - intros H100. subst total opt.
    assert (E : Rle_b 100 cv = true) by now apply Rle_b_true.
    rewrite E, Rmax_right by lra. lra.
  - intros p Hp. rewrite Hp. cbn [fmap2]. eexists. split; [reflexivity|].
    field. lra.
Qed.

(** * The further properties at concrete inputs *)

Lemma black_scholes_bounds_witness :
  Rmax 0 (20 - 25 * exp (- (0.025) * 3))
  <= black_scholes_call step_cdf 20 25 3 0.025 0.385 <= 20
  /\ Rmax 0 (25 * exp (- (0.025) * 3) - 20)
     <= black_scholes_put step_cdf 20 25 3 0.025 0.385
     <= 25 * exp (- (0.025) * 3).
Proof.
  apply (black_scholes_bounds step_cdf step_cdf_range step_cdf_symmetric
           step_cdf_mills 20 25 3 0.025 0.385); lra.
Defined.

Lemma black_scholes_degenerate_witness :
  black_scholes_call step_cdf 20 25 0 0.025 0.385 = Rmax 0 (20 - 25)
  /\ black_scholes_put step_cdf 20 25 0 0.025 0.385 = Rmax 0 (25 - 20)
  /\ black_scholes_call step_cdf 20 25 0 0.025 0.385
     - black_scholes_put step_cdf 20 25 0 0.025 0.385 = 20 - 25.
Proof.
  apply (black_scholes_degenerate step_cdf 20 25 0 0.025 0.385).
  left. lra.
Defined.

Lemma calculate_call_option_value_bounds_witness :
  0 <= calculate_call_option_value step_cdf 20 25 3 0.385 0.025
    <= (20 / 25) * 100.
Proof.
  apply (calculate_call_option_value_bounds step_cdf step_cdf_range
           20 25 3 0.385 0.025); lra.
Defined.

Lemma calculate_put_value_discounted_witness :
  calculate_put_value 100 103 2 0.04 0.1
  <= calculate_put_value 100 103 1 0.04 0.1
  /\ calculate_put_value 100 103 1 0.04 0.1 <= 103 * 0.1.
Proof.
  apply (calculate_put_value_discounted 100 103 0.04 0.1 1 2); lra.
Defined.

Lemma calculate_downward_revision_value_tiers_witness :
  calculate_downward_revision_value step_cdf 20 25 3 0.385 0.025 2
  <= calculate_downward_revision_value step_cdf 20 25 3 0.385 0.025 1
  /\ 0 <= calculate_downward_revision_value step_cdf 20 25 3 0.385 0.025 1
     <= Rmax 0 (calculate_call_option_value step_cdf 20 (20 * 0.9) 3 0.385
                  0.025
                - calculate_call_option_value step_cdf 20 25 3 0.385 0.025)
        * 0.8.
Proof.
  apply (calculate_downward_revision_value_tiers step_cdf
           20 25 3 0.385 0.025 1 2); lra.
Defined.

Lemma calculate_forced_redemption_loss_cases_witness :
  (1 <= 1 ->
   calculate_forced_redemption_loss step_cdf 20 25 1 0.385 0.025 1.30 = 0)
  /\ 0 <= calculate_forced_redemption_loss step_cdf 20 25 1 0.385 0.025 1.30
       <= calculate_call_option_value step_cdf 20 25 1 0.385 0.025
  /\ (125 < (20 / 25) * 100 ->
      calculate_forced_redemption_loss step_cdf 20 25 1 0.385 0.025 1.30
      <= 0.95 * calculate_call_option_value step_cdf 20 25 1 0.385 0.025).
Proof.
  apply (calculate_forced_redemption_loss_cases step_cdf step_cdf_range
           20 25 1 0.385 0.025 1.30); lra.
Defined.

Lemma calculate_bond_floor_edges_witness :
  calculate_bond_floor 100 None 0.5 0.04 (Some [])
  = Some (100 / Rpower (1 + 0.04) 0.5)
  /\ calculate_bond_floor 100 None 3 0.04 (Some []) = None.
Proof.
  destruct (calculate_bond_floor_edges 100 None 0.5 0.04) as [Hshort _].
  destruct (calculate_bond_floor_edges 100 None 3 0.04) as [_ Hraise].
  split.
  - apply Hshort; lra.
  - apply Hraise. lra.
Defined.

Lemma conversion_lowers_bond_floor_witness :
  exists bf,
    calculate_bond_floor 100 None 3 0.04 (Some [0.5]) = Some bf
    /\ 0 <= bf <= plain_present_value 100 (coupon_schedule None) 0.04 3.
Proof.
  apply (conversion_lowers_bond_floor 100 None 3 0.04 [0.5]).
  - lra.
  - exact default_coupon_rates_nonneg.
  - discriminate.
  - constructor; [lra|constructor].
  - lra.
  - lra.
Defined.

Lemma calculate_conversion_probability_threshold_witness :
  calculate_conversion_probability step_cdf 20 25 3 0.385 130
  <= calculate_conversion_probability step_cdf 20 25 3 0.385 100.
Proof.
  apply (calculate_conversion_probability_threshold step_cdf
           step_cdf_monotone 20 25 3 0.385 100 130); lra.
Defined.

Lemma total_value_positive_witness :
  exists res,
    calculate_shengtang_value step_cdf
      (series_of all_columns short_dated_bond) SHENGTANG_CONFIG = Some res
    /\ 0 < put_value res
    /\ bond_floor res + put_value res + revision_value res <= total_value res
    /\ 0 < total_value res.
Proof.
  apply (total_value_positive step_cdf step_cdf_range
           (series_of all_columns short_dated_bond)).
  exists 25. split; [reflexivity|lra].
Defined.

Lemma value_deviation_sign_witness :
  exists res x,
    calculate_shengtang_value step_cdf
      (series_of all_columns short_dated_bond) SHENGTANG_CONFIG = Some res
    /\ current_price res = Fin 95
    /\ value_deviation res = Fin x
    /\ total_value res * (1 + x / 100) = 95
    /\ (x < 0 <-> 95 < total_value res).
Proof.
  apply (value_deviation_sign step_cdf step_cdf_range
           (series_of all_columns short_dated_bond) 95).
  - exists 25. split; [reflexivity|lra].
  - reflexivity.
Defined.

Lemma stock_price_fallback_witness :
  calculate_shengtang_value step_cdf
    (with_stock_price (Some NaN) (series_of all_columns short_dated_bond))
    SHENGTANG_CONFIG
  = calculate_shengtang_value step_cdf
      (with_stock_price (Some (Fin (25 * 0.8)))
         (with_stock_price (Some NaN)
            (series_of all_columns short_dated_bond)))
      SHENGTANG_CONFIG.
Proof.
  apply (stock_price_fallback step_cdf
           (with_stock_price (Some NaN)
              (series_of all_columns short_dated_bond))
           25 SHENGTANG_CONFIG).
  - reflexivity.
  - lra.
  - exact I.
Defined.

Lemma years_to_maturity_fallback_witness :
  calculate_shengtang_value step_cdf
    (with_years_to_maturity (Some (Fin 0))
       (series_of all_columns short_dated_bond)) SHENGTANG_CONFIG
  = calculate_shengtang_value step_cdf
      (with_years_to_maturity (Some (Fin 0.1))
         (with_years_to_maturity (Some (Fin 0))
            (series_of all_columns short_dated_bond))) SHENGTANG_CONFIG.
Proof.
  destruct (years_to_maturity_fallback step_cdf
              (with_years_to_maturity (Some (Fin 0))
                 (series_of all_columns short_dated_bond))
              SHENGTANG_CONFIG) as [_ Hbad].
  apply (Hbad (Fin 0)).
  - reflexivity.
  - simpl. lra.
Defined.

Lemma screened_rows_are_returned_witness :
  exists v out,
    strategy_shengtang step_cdf insertion_sort tied_batch 10 50 = Some out
    /\ In {| position := 0; cells := short_dated_bond; st := v |} out.
Proof.
  destruct short_dated_bond_undervalued as (v & Hv & Htot & Hdev).
  exists v.
  apply (screened_rows_are_returned step_cdf insertion_sort
           insertion_sort_permutation tied_batch 10 50 0 short_dated_bond v).
  - reflexivity.
  - exact Hv.
  - exact Htot.
  - exact Hdev.
  - intros _. exists 12. split; [reflexivity|lra].
  - simpl. lia.
Defined.

Lemma returned_rows_are_distinct_witness :
  exists out,
    strategy_shengtang step_cdf insertion_sort tied_batch 10 50 = Some out
    /\ NoDup (map position out)
    /\ (List.length out <= List.length (rows tied_batch))%nat.
Proof.
  destruct (strategy_shengtang_total step_cdf insertion_sort tied_batch 10 50
              tied_batch_has_rows) as [out Hout].
  exists out. split; [exact Hout|].
  exact (returned_rows_are_distinct step_cdf insertion_sort
           insertion_sort_permutation tied_batch 10 50 out Hout).
Defined.


Lemma missing_cells_are_never_returned_witness :
  exists out,
    strategy_shengtang step_cdf insertion_sort
      {| columns := all_columns;
         rows := [ {| cell_price := NaN;
                      cell_stock_price := Fin 20;
                      cell_convert_price := Fin 25;
                      cell_years_to_maturity := Fin 0.5;
                      cell_rating := RatingStr "AA";
                      cell_premium_rate := Fin 12 |} ] |}
      10 50 = Some out
    /\ forall e, In e out -> position e <> 0%nat.
Proof.
  apply (missing_cells_are_never_returned step_cdf insertion_sort
           insertion_sort_permutation
           {| columns := all_columns;
              rows := [ {| cell_price := NaN;
                           cell_stock_price := Fin 20;
                           cell_convert_price := Fin 25;
                           cell_years_to_maturity := Fin 0.5;
                           cell_rating := RatingStr "AA";
                           cell_premium_rate := Fin 12 |} ] |}
           0 _ eq_refl (or_introl eq_refl) 10 50).
Defined.

Lemma calculate_convert_value_number_witness :
  calculate_convert_value (Fin 20) (Fin 25) 100 = Fin (20 / 25 * 100).
Proof.
  apply (calculate_convert_value_number (Fin 20) (Fin 25) 100).
  exists 20, 25. repeat split. lra.
Defined.

Lemma calculate_premium_rate_round_trip_witness :
  exists x,
    calculate_premium_rate (Fin 95) (Fin 80) = Fin x
    /\ 80 * (1 + x / 100) = 95
    /\ (x < 0 <-> 95 < 80).
Proof.
  apply (calculate_premium_rate_round_trip 95 80). lra.
Defined.

Lemma indicators_missing_without_convert_price_witness :
  calculate_convert_value (Fin 20) (Fin 0) 100 = NaN
  /\ calculate_premium_rate (Fin 95)
       (calculate_convert_value (Fin 20) (Fin 0) 100) = NaN
  /\ calculate_double_low (Fin 95)
       (calculate_premium_rate (Fin 95)
          (calculate_convert_value (Fin 20) (Fin 0) 100)) 1.0 = NaN.
Proof.
  apply (indicators_missing_without_convert_price (Fin 95) (Fin 20) (Fin 0)
           100 1.0).
  simpl. lra.
Defined.

Lemma calculate_pure_bond_value_is_bond_floor_witness :
  calculate_bond_floor 100 (Some [0.02]) 3 0.04 None
  = Some (calculate_pure_bond_value 100 0.02 3 0.04).
Proof.
  apply (calculate_pure_bond_value_is_bond_floor 100 0.02 3 0.04). lra.
Defined.

Lemma calculate_ytm_simple_decreasing_witness :
  exists y1 y2,
    calculate_ytm_simple (Fin 95) 100 (Fin 3) 0.01 = Fin y1
    /\ calculate_ytm_simple (Fin 105) 100 (Fin 3) 0.01 = Fin y2
    /\ y2 < y1
    /\ calculate_ytm_simple (Fin 100) 100 (Fin 3) 0.01 = Fin (0.01 * 100).
Proof.
  apply (calculate_ytm_simple_decreasing 100 3 0.01 95 105); lra.
Defined.

Lemma ytm_column_cases_witness : ytm_column (Fin 95) NaN = Fin 0.
Proof.
  destruct (ytm_column_cases (Fin 95) NaN) as [Hzero _].
  apply Hzero. exact I.
Defined.

Lemma simple_valuation_none_iff_witness :
  Simple.simple_valuation
    {| Simple.price := Some (Fin 95);
       Simple.convert_value := Some NaN;
       Simple.years_to_maturity := Some (Fin 3) |} = None.
Proof.
  apply (simple_valuation_none_iff
           {| Simple.price := Some (Fin 95);
              Simple.convert_value := Some NaN;
              Simple.years_to_maturity := Some (Fin 3) |}).
  exact I.
Defined.

Lemma simple_valuation_total_witness :
  exists total deviation,
    Simple.simple_valuation
      {| Simple.price := Some (Fin 95);
         Simple.convert_value := Some (Fin 110);
         Simple.years_to_maturity := Some (Fin 3) |}
    = Some (total, deviation)
    /\ 110 <= total
    /\ (100 <= 110 -> total = 1.5 * 110 - 47.5)
    /\ forall p,
         row_get (Simple.price
                    {| Simple.price := Some (Fin 95);
                       Simple.convert_value := Some (Fin 110);
                       Simple.years_to_maturity := Some (Fin 3) |})
                 (Fin 100) = Fin p ->
         exists x, deviation = Fin x /\ total * (1 + x / 100) = p.
Proof.
  apply (simple_valuation_total
           {| Simple.price := Some (Fin 95);
              Simple.convert_value := Some (Fin 110);
              Simple.years_to_maturity := Some (Fin 3) |} 110).
  - reflexivity.
  - lra.
Defined.

Lemma calculate_shengtang_value_config_witness :
  calculate_shengtang_value step_cdf
    (series_of all_columns short_dated_bond)
    {| risk_free_rate := 0.025;
       credit_spread := [];
       call_trigger_ratio := 2;
       put_trigger_ratio := 0.5;
       downward_revision_base_prob := 0;
       volatility_adjustment := 1.1;
       default_volatility := 0.35;
       conversion_threshold := 130.0 |}
  = calculate_shengtang_value step_cdf
      (series_of all_columns short_dated_bond) SHENGTANG_CONFIG.
Proof.
  apply (calculate_shengtang_value_config step_cdf
           (series_of all_columns short_dated_bond)); reflexivity.
Defined.
